(** * Test-case validation engine: structural and scenario validators

    A shallow embedding of [src/validators/validator.py]
    ([TestCaseValidator]) and [version4.1/schema/scenario_validator.py]
    ([ScenarioValidator]), with the properties of the specification proved
    or refuted on it.

    Modelling conventions.
    - A CSV row is the dictionary [csv.DictReader] yields: a finite map
      from column names to cells, [gmap string string].  A column that the
      header lacks is a missing key.  Every line is taken to carry as many
      cells as the header (no [None] filler cells, no surplus cells).
    - Text is a [string] of 8-bit characters; [lower] and the regular
      expression classes are the ASCII ones.
    - Python integers are [Z].
    - [self.results] and [self.checks] are append-only accumulators; every
      pass is modelled by the list of records it appends, in order. *)

From Stdlib Require Import ZArith Ascii String List Lia Bool Sorted.
From stdpp Require Import gmap strings list fin_maps pretty.

Local Open Scope Z_scope.

(** ** Python string primitives *)
Module PyStr.

(** [c.lower()] on one character. *)
Definition ascii_lower (c : ascii) : ascii :=
  let n := N_of_ascii c in
  if ((65 <=? n) && (n <=? 90))%N then ascii_of_N (n + 32) else c.

(** [s.lower()]. *)
Fixpoint lower (s : string) : string :=
  match s with
  | EmptyString => EmptyString
  | String c s' => String (ascii_lower c) (lower s')
  end.

(** [s.startswith(p)]. *)
Definition startswith (s p : string) : bool := String.prefix p s.

(** [sub in s]. *)
Fixpoint contains (sub s : string) : bool :=
  match s with
  | EmptyString => String.prefix sub EmptyString
  | String _ s' => String.prefix sub s || contains sub s'
  end.

(** [s[:n]]. *)
Definition take (n : nat) (s : string) : string := String.substring 0 n s.

(** Truthiness of a string: non-empty. *)
Definition truthy (s : string) : bool :=
  match s with EmptyString => false | String _ _ => true end.

(** [str(b)] for a bool. *)
Definition str_bool (b : bool) : string := if b then "True" else "False".

(** [repr] of a list of plain strings, as an f-string prints it. *)
Fixpoint repr_items (l : list string) : string :=
  match l with
  | [] => ""
  | [x] => "'" +:+ x +:+ "'"
  | x :: l' => "'" +:+ x +:+ "', " +:+ repr_items l'
  end.

Definition repr_list (l : list string) : string := "[" +:+ repr_items l +:+ "]".

(** Regular-expression character classes (ASCII). *)
Definition is_digit (c : ascii) : bool :=
  let n := N_of_ascii c in ((48 <=? n) && (n <=? 57))%N.

Definition is_word (c : ascii) : bool :=
  let n := N_of_ascii c in
  (((48 <=? n) && (n <=? 57)) || ((65 <=? n) && (n <=? 90))
   || ((97 <=? n) && (n <=? 122)) || (n =? 95))%N.

Definition is_space (c : ascii) : bool :=
  let n := N_of_ascii c in
  (((9 <=? n) && (n <=? 13)) || ((28 <=? n) && (n <=? 32)))%N.

(** Longest prefix of digits, and the rest. *)
Fixpoint span_digits (s : string) : string * string :=
  match s with
  | EmptyString => (EmptyString, EmptyString)
  | String c s' =>
      if is_digit c
      then let '(d, r) := span_digits s' in (String c d, r)
      else (EmptyString, s)
  end.

Fixpoint skip_spaces (s : string) : string :=
  match s with
  | EmptyString => EmptyString
  | String c s' => if is_space c then skip_spaces s' else s
  end.

(** A match of [(\d+)\s*tail] anchored at the head of [s]; the result is
    group 1.  [tail] starts with neither a digit nor a blank at both call
    sites, so the greedy digit and blank runs never give a character back. *)
Definition match_count_at (tail s : string) : option string :=
  let '(d, r) := span_digits s in
  if truthy d && String.prefix tail (skip_spaces r) then Some d else None.

(** [re.search(r'(\d+)\s*tail', s)], group 1 of the leftmost match. *)
Fixpoint search_count (tail s : string) : option string :=
  match match_count_at tail s with
  | Some d => Some d
  | None =>
      match s with
      | EmptyString => None
      | String _ s' => search_count tail s'
      end
  end.

(** [int(d)] for a run of ASCII digits. *)
Fixpoint int_digits (acc : Z) (d : string) : Z :=
  match d with
  | EmptyString => acc
  | String c d' => int_digits (10 * acc + (Z.of_N (N_of_ascii c) - 48)) d'
  end.

Definition int_of (d : string) : Z := int_digits 0 d.

(** [\b] after the literal [w]: end of text or a non-word character. *)
Definition boundary_after (w s : string) : bool :=
  String.prefix w s &&
  match String.substring (String.length w) 1 s with
  | String c _ => negb (is_word c)
  | EmptyString => true
  end.

(** [re.search(r'\bw\b', s)] for a literal [w] made of word characters;
    [prev] tells whether the character before [s] is a word character. *)
Fixpoint search_word_from (prev : bool) (w s : string) : bool :=
  (negb prev && boundary_after w s) ||
  match s with
  | EmptyString => false
  | String c s' => search_word_from (is_word c) w s'
  end.

Definition search_word (w s : string) : bool := search_word_from false w s.

(** [re.search(p, s, re.IGNORECASE)] for a pattern [p] without
    metacharacters. *)
Definition search_literal_ci (p s : string) : bool :=
  contains (lower p) (lower s).

End PyStr.

(** ** Rows *)

(** [row.get(k)]. *)
Definition get (row : gmap string string) (k : string) : option string :=
  row !! k.

(** [row.get(k, d)]. *)
Definition get_or (row : gmap string string) (k d : string) : string :=
  default d (row !! k).

(** [enumerate(rows, start=i)]. *)
Fixpoint enumerate {A} (i : Z) (l : list A) : list (Z * A) :=
  match l with
  | [] => []
  | x :: l' => (i, x) :: enumerate (i + 1) l'
  end.


(** ** [validator.py]: the structural validator *)
Module Validator.

Inductive ValidationSeverity := ERROR | WARNING | INFO.

#[global] Instance ValidationSeverity_eq_dec : EqDecision ValidationSeverity.
Proof. solve_decision. Defined.

Record ValidationResult := mkResult {
  severity : ValidationSeverity;
  row : Z;
  field : string;
  message : string
}.

#[global] Instance ValidationResult_eq_dec : EqDecision ValidationResult.
Proof. solve_decision. Defined.

Definition REQUIRED_COLUMNS : list string :=
  ["Group"; "Element"; "Action"; "Value"; "Strategy"; "XPath"].

Definition VALID_ACTIONS : list string := ["click"; "Input"].

Definition VALID_STRATEGIES : list string :=
  ["id"; "data-testid"; "data-testid+text"; "absolute"; "name"; "class"; "text"].

Definition PAGE_ORDER : list string :=
  ["Contact Info"; "Personal Information"; "Documents"; "Additional Details";
   "Other Products"; "PEP / FATCA"; "PDF / Other Details"].

(** One entry of [rules['dependency_rules']].  [trigger_value] is [None]
    when the key is absent. *)
Record ConditionalRule := mkRule {
  trigger_field : string;
  trigger_value : option bool;
  required_fields : list string;
  excluded_fields : list string
}.

(** [x in l] for a list of strings. *)
Definition in_list (x : string) (l : list string) : bool :=
  bool_decide (x ∈ l).

(** [_validate_structure]. *)
Definition missing_column (first_row : gmap string string) (col : string)
  : list ValidationResult :=
  if bool_decide (col ∈ dom first_row) then []
  else [mkResult ERROR 0 col ("Missing required column: " +:+ col)].

Definition _validate_structure (rows : list (gmap string string))
  : list ValidationResult :=
  match rows with
  | [] => [mkResult ERROR 0 "file" "CSV is empty"]
  | first_row :: _ => concat (map (missing_column first_row) REQUIRED_COLUMNS)
  end.

(** [_validate_xpath]. *)
Definition _validate_xpath (row_num : Z) (xpath : string)
  : list ValidationResult :=
  if negb (PyStr.startswith xpath "/")
  then [mkResult ERROR row_num "XPath"
          ("XPath must start with '/': " +:+ PyStr.take 50 xpath +:+ "...")]
  else [].

(** The body of the loop of [_validate_content], for one row. *)
Definition content_row (row_num : Z) (r : gmap string string)
  : list ValidationResult :=
  let action := get_or r "Action" "" in
  let strategy := get_or r "Strategy" "" in
  let xpath := get_or r "XPath" "" in
  let group := get_or r "Group" "" in
  (if PyStr.truthy action && negb (in_list action VALID_ACTIONS)
   then [mkResult ERROR row_num "Action"
           ("Invalid action '" +:+ action +:+ "'. Must be one of: "
            +:+ PyStr.repr_list VALID_ACTIONS)]
   else [])
  ++
  (if PyStr.truthy strategy && negb (in_list strategy VALID_STRATEGIES)
   then [mkResult WARNING row_num "Strategy"
           ("Unusual strategy '" +:+ strategy +:+ "'. Expected one of: "
            +:+ PyStr.repr_list VALID_STRATEGIES)]
   else [])
  ++
  (if PyStr.truthy xpath then _validate_xpath row_num xpath else [])
  ++
  (if bool_decide (action = "Input")
      && negb (from_option PyStr.truthy false (get r "Value"))
   then [mkResult WARNING row_num "Value" "Input action with empty value"]
   else [])
  ++
  (if PyStr.truthy group
      && negb (existsb (fun p => PyStr.contains group p) PAGE_ORDER)
   then [mkResult WARNING row_num "Group"
           ("Unknown group/page: '" +:+ group +:+ "'")]
   else []).

(** [_validate_content]. *)
Definition _validate_content (rows : list (gmap string string))
  : list ValidationResult :=
  concat (map (fun ir => content_row ir.1 ir.2) (enumerate 1 rows)).

(** The inner loop of [_validate_sequence]: the index of the first page of
    [pages] that contains [group] or is contained in it, counted from [j];
    [-1] when there is none. *)
Fixpoint find_page_index (j : Z) (pages : list string) (group : string) : Z :=
  match pages with
  | [] => -1
  | page :: pages' =>
      if PyStr.contains page group || PyStr.contains group page then j
      else find_page_index (j + 1) pages' group
  end.

Definition page_index_of (r : gmap string string) : Z :=
  find_page_index 0 PAGE_ORDER (get_or r "Group" "").

(** One iteration of the loop of [_validate_sequence]: the state is
    [current_page_index]; the result is the new state and what the
    iteration appends to [self.results]. *)
Definition sequence_step (current_page_index : Z) (i : Z)
    (r : gmap string string) : Z * list ValidationResult :=
  let group := get_or r "Group" "" in
  let page_index := find_page_index 0 PAGE_ORDER group in
  if page_index =? -1 then (current_page_index, [])
  else
    (Z.max current_page_index page_index,
     if page_index <? current_page_index
     then [mkResult ERROR i "Group"
             ("Page '" +:+ group +:+ "' appears after a later page. Expected order: "
              +:+ PyStr.repr_list PAGE_ORDER)]
     else []).

(** The loop of [_validate_sequence] from row number [i] and state
    [current_page_index]: final state and appended results. *)
Fixpoint sequence_loop (current_page_index : Z) (i : Z)
    (rows : list (gmap string string)) : Z * list ValidationResult :=
  match rows with
  | [] => (current_page_index, [])
  | r :: rows' =>
      let '(cur', out) := sequence_step current_page_index i r in
      let '(final, outs) := sequence_loop cur' (i + 1) rows' in
      (final, out ++ outs)
  end.

(** [_validate_sequence]. *)
Definition _validate_sequence (rows : list (gmap string string))
  : list ValidationResult :=
  (sequence_loop (-1) 1 rows).2.

(** The successive values of [current_page_index], one per iteration. *)
Fixpoint sequence_trace (current_page_index : Z) (i : Z)
    (rows : list (gmap string string)) : list Z :=
  match rows with
  | [] => []
  | r :: rows' =>
      let cur' := (sequence_step current_page_index i r).1 in
      cur' :: sequence_trace cur' (i + 1) rows'
  end.

(** The first loop of [_validate_conditionals]: one iteration. *)
Definition track_boolean (boolean_states : gmap string bool)
    (r : gmap string string) : gmap string bool :=
  let element := get_or r "Element" "" in
  let action := get_or r "Action" "" in
  let value := get_or r "Value" "" in
  if bool_decide (action = "Input")
     && in_list value ["true"; "false"; "True"; "False"]
  then <[element := bool_decide (PyStr.lower value = "true")]> boolean_states
  else boolean_states.

Definition boolean_states_of (rows : list (gmap string string))
  : gmap string bool :=
  fold_left track_boolean rows ∅.

(** [{row.get('Element', '') for row in rows}]. *)
Definition present_elements (rows : list (gmap string string)) : gset string :=
  list_to_set (map (fun r => get_or r "Element" "") rows).

(** [actual_value == trigger_value]. *)
Definition eq_trigger (actual_value : bool) (tv : option bool) : bool :=
  match tv with
  | Some b => bool_decide (actual_value = b)
  | None => false
  end.

(** [f"{trigger_value}"]. *)
Definition str_trigger (tv : option bool) : string :=
  match tv with
  | Some b => PyStr.str_bool b
  | None => "None"
  end.

(** The body of the second loop of [_validate_conditionals], for one rule. *)
Definition check_rule (rows : list (gmap string string))
    (boolean_states : gmap string bool) (rule : ConditionalRule)
  : list ValidationResult :=
  match boolean_states !! trigger_field rule with
  | None => []
  | Some actual_value =>
      if eq_trigger actual_value (trigger_value rule)
      then
        concat (map (fun req_field =>
          if bool_decide (req_field ∈ present_elements rows) then []
          else [mkResult WARNING 0 req_field
                  ("Field '" +:+ req_field +:+ "' may be required when '"
                   +:+ trigger_field rule +:+ "' is "
                   +:+ str_trigger (trigger_value rule))])
          (required_fields rule))
      else
        concat (map (fun excl_field =>
          if bool_decide (excl_field ∈ present_elements rows)
          then [mkResult WARNING 0 excl_field
                  ("Field '" +:+ excl_field +:+ "' may not be needed when '"
                   +:+ trigger_field rule +:+ "' is "
                   +:+ PyStr.str_bool actual_value)]
          else [])
          (excluded_fields rule))
  end.

(** [_validate_conditionals]; [rules] is [self.rules.get('dependency_rules', [])]. *)
Definition _validate_conditionals (rules : list ConditionalRule)
    (rows : list (gmap string string)) : list ValidationResult :=
  concat (map (check_rule rows (boolean_states_of rows)) rules).

Definition is_error (r : ValidationResult) : bool :=
  bool_decide (severity r = ERROR).

(** [validate_csv], once [_read_csv] has returned [rows]. *)
Definition validate_csv (rules : list ConditionalRule)
    (rows : list (gmap string string)) : bool * list ValidationResult :=
  let results :=
    _validate_structure rows ++ _validate_content rows
    ++ _validate_sequence rows ++ _validate_conditionals rules rows in
  let has_errors := existsb is_error results in
  (negb has_errors, results).

(** *** The registries *)

(** A dropdown option of the schema; [None] is a missing key. *)
Record SchemaOption := mkOption {
  o_xpath : option string;
  o_value : option string
}.

(** A field of the schema; [None] is a missing key. *)
Record SchemaField := mkField {
  f_id : option string;
  f_xpath : option string;
  f_xpath_true : option string;
  f_xpath_false : option string;
  f_xpath_trigger : option string;
  f_options : list SchemaOption
}.

(** [self.element_registry] and [self.xpath_registry]. *)
Record Registries := mkRegistries {
  element_registry : gmap string SchemaField;
  xpath_registry : gmap string string
}.

(** [if key in field: self.xpath_registry[field[key]] = ident]. *)
Definition register_xpath (key : option string) (ident : string)
    (registry : gmap string string) : gmap string string :=
  match key with
  | Some xpath => <[xpath := ident]> registry
  | None => registry
  end.

(** The body of the loop over [field.get('options', [])]. *)
Definition register_option (registry : gmap string string)
    (o : SchemaOption) : gmap string string :=
  register_xpath (o_xpath o) (default "" (o_value o)) registry.

(** The body of the loop over the fields of a section. *)
Definition register_field (st : Registries) (f : SchemaField) : Registries :=
  let field_id := default "" (f_id f) in
  let st1 :=
    if PyStr.truthy field_id then
      mkRegistries
        (<[field_id := f]> (element_registry st))
        (register_xpath (f_xpath_trigger f) (field_id +:+ "_trigger")
           (register_xpath (f_xpath_false f) (field_id +:+ "_false")
              (register_xpath (f_xpath_true f) (field_id +:+ "_true")
                 (register_xpath (f_xpath f) field_id (xpath_registry st)))))
    else st in
  mkRegistries (element_registry st1)
    (fold_left register_option (f_options f) (xpath_registry st1)).

(** [_build_registries]; the schema is [self.schema.get('pages', [])], a
    page its list of sections, a section its list of fields. *)
Definition _build_registries (schema : list (list (list SchemaField)))
  : Registries :=
  fold_left
    (fun st page =>
       fold_left (fun st section => fold_left register_field section st) page st)
    schema (mkRegistries ∅ ∅).

End Validator.

(** ** [scenario_validator.py]: the scenario validator *)
Module Scenario.

Inductive CheckResult := PASS | FAIL | WARN | INFO.

#[global] Instance CheckResult_eq_dec : EqDecision CheckResult.
Proof. solve_decision. Defined.

Record ValidationCheck := mkCheck {
  name : string;
  result : CheckResult;
  expected : string;
  actual : string;
  details : string
}.

Record ScenarioRequirements := mkReq {
  employment_status : option string;
  employer : option string;
  sector : option string;
  salary_range : option string;
  marital_status : option string;
  gender : option string;
  has_beneficiary : option bool;
  beneficiary_count : option Z;
  has_joint_partner : option bool;
  joint_partner_count : option Z;
  lincu_card : option bool;
  fip_application : option bool;
  fip_plan : option string;
  permanent_address_same : option bool;
  all_pep_no : option bool;
  all_fatca_no : option bool;
  pep_positive_fields : list string
}.

(** The keyword dictionaries, in insertion order. *)
Definition EMPLOYMENT_KEYWORDS : list (string * string) :=
  [("full-time permanent", "FULL TIME PERMANENT");
   ("full-time temporary", "FULL TIME TEMPORARY");
   ("part-time", "PART TIME");
   ("self-employed", "SELF EMPLOYED");
   ("unemployed", "UNEMPLOYED");
   ("retired pensioned", "RETIRED PENSIONED");
   ("retired non-pensioned", "RETIRED NON PENSIONED")].

Definition MARITAL_KEYWORDS : list (string * string) :=
  [("single", "SINGLE");
   ("married", "MARRIED");
   ("divorced", "DIVORCED");
   ("widowed", "WIDOWED");
   ("common law", "COMMON LAW")].

(** [for keyword, value in table.items(): if keyword in text: ...; break]. *)
Fixpoint first_keyword (table : list (string * string)) (text : string)
  : option string :=
  match table with
  | [] => None
  | (keyword, value) :: table' =>
      if PyStr.contains keyword text then Some value
      else first_keyword table' text
  end.

(** The two "no X" / "<n> X" blocks of [parse_scenario]. *)
Definition parse_count (noun text : string) : option bool * option Z :=
  if PyStr.contains ("no " +:+ noun) text then (Some false, Some 0)
  else
    match PyStr.search_count noun text with
    | Some d => (Some true, Some (PyStr.int_of d))
    | None => (None, None)
    end.

(** [parse_scenario]. *)
Definition parse_scenario (scenario : string) : ScenarioRequirements :=
  let scenario_lower := PyStr.lower scenario in
  let has := fun k => PyStr.contains k scenario_lower in
  let ben := parse_count "beneficiar" scenario_lower in
  let jp := parse_count "joint partner" scenario_lower in
  let fip_no := has "no fip" || has "not applying for fip" in
  let pep_fatca := has "pep/fatca" && has "no" in
  {| employment_status := first_keyword EMPLOYMENT_KEYWORDS scenario_lower;
     employer := None;
     sector := None;
     salary_range := None;
     marital_status := first_keyword MARITAL_KEYWORDS scenario_lower;
     gender :=
       if PyStr.search_word "male" scenario_lower then Some "male"
       else if PyStr.search_word "female" scenario_lower then Some "female"
       else None;
     has_beneficiary := ben.1;
     beneficiary_count := ben.2;
     has_joint_partner := jp.1;
     joint_partner_count := jp.2;
     lincu_card :=
       if has "no lincu" || has "not applying for lincu" then Some false
       else if has "lincu card" || has "applying for lincu" then Some true
       else None;
     fip_application :=
       if fip_no then Some false
       else if has "fip" then Some true
       else None;
     fip_plan :=
       if fip_no then None
       else if has "fip" then
         if has "plan a" then Some "Plan A"
         else if has "plan b" then Some "Plan B"
         else if has "plan c" then Some "Plan C"
         else None
       else None;
     permanent_address_same :=
       if has "permanent address same" || has "same as mailing" then Some true
       else if has "different" && has "address" then Some false
       else None;
     all_pep_no :=
       if (has "all pep" && has "no") || pep_fatca then Some true else None;
     all_fatca_no :=
       if (has "all fatca" && has "no") || pep_fatca then Some true else None;
     pep_positive_fields := [] |}.

(** [get_field_value]: [None] is Python's [None]. *)
Fixpoint get_field_value (rows : list (gmap string string))
    (element_name : string) : option string :=
  match rows with
  | [] => None
  | r :: rows' =>
      if bool_decide (get r "Element" = Some element_name)
         && bool_decide (get r "Action" = Some "Input")
      then get r "Value"
      else get_field_value rows' element_name
  end.

(** The second loop of [get_boolean_value]. *)
Fixpoint click_value (rows : list (gmap string string))
    (element_name : string) : option bool :=
  match rows with
  | [] => None
  | r :: rows' =>
      if bool_decide (get r "Element" = Some element_name)
         && bool_decide (get r "Action" = Some "click")
      then
        let xpath := get_or r "XPath" "" in
        if PyStr.contains "label[1]" xpath then Some true
        else if PyStr.contains "label[2]" xpath then Some false
        else click_value rows' element_name
      else click_value rows' element_name
  end.

(** [get_boolean_value]. *)
Definition get_boolean_value (rows : list (gmap string string))
    (element_name : string) : option bool :=
  match get_field_value rows element_name with
  | Some value => Some (bool_decide (PyStr.lower value = "true"))
  | None => click_value rows element_name
  end.

(** [has_element]. *)
Definition has_element (rows : list (gmap string string))
    (element_name : string) : bool :=
  existsb (fun r => bool_decide (get r "Element" = Some element_name)) rows.

(** [count_element_occurrences], for a pattern without metacharacters. *)
Definition count_element_occurrences (rows : list (gmap string string))
    (element_pattern : string) : Z :=
  Z.of_nat (length (List.filter
    (fun r => PyStr.search_literal_ci element_pattern (get_or r "Element" ""))
    rows)).

(** The loop of [get_selected_dropdown_value], with its flag. *)
Fixpoint dropdown_loop (found_trigger : bool) (trigger_text : string)
    (rows : list (gmap string string)) : option string :=
  match rows with
  | [] => None
  | r :: rows' =>
      let element := get_or r "Element" "" in
      let action := get_or r "Action" "" in
      if PyStr.contains (PyStr.lower trigger_text) (PyStr.lower element)
         && bool_decide (action = "click")
      then dropdown_loop true trigger_text rows'
      else if found_trigger && bool_decide (action = "click")
              && PyStr.contains "option" (PyStr.lower (get_or r "XPath" ""))
      then Some element
      else dropdown_loop found_trigger trigger_text rows'
  end.

(** [get_selected_dropdown_value]. *)
Definition get_selected_dropdown_value (rows : list (gmap string string))
    (trigger_text : string) : option string :=
  dropdown_loop false trigger_text rows.

Definition EXPECTED_PAGES : list string :=
  ["Contact Info"; "Documents"; "Additional Details";
   "Other Products"; "PEP / FATCA"; "PDF / Other Details"].

Definition PEP_FIELDS : list string :=
  ["isHeadOfState"; "isHeadOfGovt"; "isSenPolitician";
   "isSenGovtOfficial"; "isSenJudicialOfficial"; "isSenMilitaryOfficial";
   "isSenExecSOC"; "isImpPPO"; "isImmediateFamily";
   "isMemberOfSeniorManagement"; "isPepAssociate"].

Definition FATCA_FIELDS : list string :=
  ["isCitizenOfOtherCountry"; "isGreenCardHolder";
   "isGranteePOA"; "hasStandingInstructIncome";
   "isDisclosureTaxResidency"].

(** [str(x)] for an int. *)
Definition str_int (x : Z) : string := pretty x.

(** [str(x)] for an [Optional[bool]]. *)
Definition str_opt_bool (x : option bool) : string :=
  match x with
  | Some b => PyStr.str_bool b
  | None => "None"
  end.

(** Truthiness of an [Optional[str]]. *)
Definition truthy_opt (x : option string) : bool :=
  from_option PyStr.truthy false x.

(** [x or "Not found"]. *)
Definition or_not_found (x : option string) : string :=
  if truthy_opt x then default "" x else "Not found".

Definition pass_or (other : CheckResult) (ok : bool) : CheckResult :=
  if ok then PASS else other.

Section validate.

(** [str(s)] of a set of strings: the order of the elements is the
    interpreter's, not the program's. *)
Variable set_repr : gset string -> string.

(** The pages block of [validate]. *)
Definition pages_normalized (rows : list (gmap string string)) : gset string :=
  let pages : gset string :=
    list_to_set (map (fun r => get_or r "Group" "") rows) in
  list_to_set
    (flat_map (fun p =>
       List.filter (fun ep =>
         PyStr.contains (PyStr.lower ep) (PyStr.lower p)
         || PyStr.contains (PyStr.lower p) (PyStr.lower ep)) EXPECTED_PAGES)
     (elements pages)).

Definition page_coverage_check (rows : list (gmap string string))
  : ValidationCheck :=
  let expected_pages : gset string := list_to_set EXPECTED_PAGES in
  let normalized := pages_normalized rows in
  let missing_pages := expected_pages ∖ normalized in
  let none_missing := bool_decide (missing_pages = ∅) in
  mkCheck "Page Coverage"
    (pass_or FAIL none_missing)
    "All 6 pages"
    (str_int (Z.of_nat (size normalized)) +:+ "/6 pages")
    (if none_missing then "All pages covered"
     else "Missing: " +:+ set_repr missing_pages).

(** The two dropdown blocks of [validate]. *)
Definition dropdown_check (rows : list (gmap string string))
    (check_name trigger_text : string) (required : option string)
  : list ValidationCheck :=
  match required with
  | Some req_value =>
      if PyStr.truthy req_value then
        let actual := get_selected_dropdown_value rows trigger_text in
        let ok :=
          truthy_opt actual
          && PyStr.contains (PyStr.lower req_value)
               (PyStr.lower (default "" actual)) in
        [mkCheck check_name (pass_or FAIL ok) req_value (or_not_found actual) ""]
      else []
  | None => []
  end.

(** The beneficiary and joint-partner blocks: the boolean of the field,
    else the presence of a field of the section. *)
Definition section_check (rows : list (gmap string string))
    (check_name flag_field proxy_field : string) (required : option bool)
  : list ValidationCheck :=
  match required with
  | Some req_value =>
      let actual_value :=
        match get_boolean_value rows flag_field with
        | Some b => b
        | None => has_element rows proxy_field
        end in
      [mkCheck check_name
         (pass_or FAIL (bool_decide (actual_value = req_value)))
         (PyStr.str_bool req_value) (PyStr.str_bool actual_value) ""]
  | None => []
  end.

Definition beneficiary_count_check (rows : list (gmap string string))
    (req : ScenarioRequirements) : list ValidationCheck :=
  match has_beneficiary req, beneficiary_count req with
  | Some _, Some n =>
      if 0 <? n then
        let count := count_element_occurrences rows "beneficiaryMobileNo" in
        [mkCheck "Beneficiary Count" (pass_or WARN (count =? n))
           (str_int n) (str_int count) ""]
      else []
  | _, _ => []
  end.

(** The LinCU and FIP blocks. *)
Definition flag_check (rows : list (gmap string string))
    (check_name flag_field : string) (required : option bool)
  : list ValidationCheck :=
  match required with
  | Some req_value =>
      let actual_value := get_boolean_value rows flag_field in
      [mkCheck check_name
         (pass_or FAIL (bool_decide (actual_value = Some req_value)))
         (PyStr.str_bool req_value)
         (match actual_value with
          | Some b => PyStr.str_bool b
          | None => "Not found"
          end) ""]
  | None => []
  end.

(** The PEP and FATCA blocks. *)
Definition all_no_check (rows : list (gmap string string))
    (check_name : string) (fields : list string) (required : option bool)
  : list ValidationCheck :=
  if bool_decide (required = Some true) then
    let all_false :=
      negb (existsb (fun f =>
        bool_decide (get_boolean_value rows f = Some true)) fields) in
    [mkCheck check_name (pass_or FAIL all_false) "All False"
       (if all_false then "All False" else "Some True") ""]
  else [].

Definition otp_check (rows : list (gmap string string)) : ValidationCheck :=
  let otp_count := count_element_occurrences rows "otp-input-0" in
  mkCheck "OTP Verifications" (pass_or WARN (2 <=? otp_count))
    "2 (initial + final)" (str_int otp_count) "".

(** The checks of [validate] before the OTP check, in order. *)
Definition checks_before_otp (rows : list (gmap string string))
    (req : ScenarioRequirements) : list ValidationCheck :=
  [mkCheck "Row Count" INFO "100-400 typical"
     (str_int (Z.of_nat (length rows))) "Total rows in generated CSV"]
  ++ [page_coverage_check rows]
  ++ dropdown_check rows "Employment Status" "Employment Status"
       (employment_status req)
  ++ dropdown_check rows "Marital Status" "Marital Status"
       (marital_status req)
  ++ section_check rows "Has Beneficiary" "hasBeneficiary"
       "beneficiaryMobileNo" (has_beneficiary req)
  ++ beneficiary_count_check rows req
  ++ section_check rows "Has Joint Partner" "hasJointPartner"
       "customerId" (has_joint_partner req)
  ++ flag_check rows "LinCU Card Application"
       "isApplyingForLincuCardApplication" (lincu_card req)
  ++ flag_check rows "FIP Application"
       "isApplyingForFipApplication" (fip_application req)
  ++ all_no_check rows "All PEP Questions = No" PEP_FIELDS (all_pep_no req)
  ++ all_no_check rows "All FATCA Questions = No" FATCA_FIELDS
       (all_fatca_no req).

Definition is_fail (c : ValidationCheck) : bool :=
  bool_decide (result c = FAIL).

(** [validate]; [rows] is [self.rows]. *)
Definition validate (rows : list (gmap string string)) (scenario : string)
  : bool * list ValidationCheck :=
  let req := parse_scenario scenario in
  let checks := checks_before_otp rows req ++ [otp_check rows] in
  let fails := Z.of_nat (length (List.filter is_fail checks)) in
  (fails =? 0, checks).

End validate.

End Scenario.

(** ** [generate_test_case.py]: the repair of the generated CSV

    [fix_csv_quoting] splits every line into fields with a hand-written
    scanner, regroups the fields of lines that have more than seven, and
    hands the rows to [csv.writer].  The scanner and the regrouping are
    modelled; the text the writer produces is the library's and is not. *)
Module Generator.

(** The double quote and the comma. *)
Definition quote_char : ascii := "034"%char.
Definition comma_char : ascii := ","%char.

(** [s + c]. *)
Definition add_char (s : string) (c : ascii) : string :=
  s +:+ String c EmptyString.

(** The [while] loop over one line: [parts], [in_quotes] and [current]
    are the variables of the source, [line] is [line[i:]]. *)
Fixpoint split_loop (parts : list string) (in_quotes : bool)
    (current : string) (line : string) : list string :=
  match line with
  | EmptyString => parts ++ [current]
  | String char rest =>
      if Ascii.eqb char quote_char then
        match rest with
        | String next rest' =>
            if Ascii.eqb next quote_char
            then split_loop parts in_quotes (add_char current quote_char) rest'
            else split_loop parts (negb in_quotes) current rest
        | EmptyString => split_loop parts (negb in_quotes) current rest
        end
      else if Ascii.eqb char comma_char && negb in_quotes
      then split_loop (parts ++ [current]) in_quotes EmptyString rest
      else split_loop parts in_quotes (add_char current char) rest
  end.

(** The fields of one line. *)
Definition split_line (line : string) : list string :=
  split_loop [] false EmptyString line.

(** [','.join(l)]. *)
Fixpoint join_commas (l : list string) : string :=
  match l with
  | [] => EmptyString
  | [x] => x
  | x :: l' => x +:+ String comma_char (join_commas l')
  end.

(** [s in ('click', 'Input')]. *)
Definition is_action (s : string) : bool :=
  bool_decide (s = "click") || bool_decide (s = "Input").

(** The position of the first action among [l]. *)
Fixpoint first_action (l : list string) : option nat :=
  match l with
  | [] => None
  | x :: l' => if is_action x then Some 0%nat else S <$> first_action l'
  end.

(** [parts[i]], for an index in range. *)
Definition item (parts : list string) (i : nat) : string :=
  default EmptyString (parts !! i).

(** The regrouping of the fields of one line.  The search for the action
    runs over [range(2, len(parts) - 2)]. *)
Definition repair_parts (parts : list string) : list string :=
  let n := length parts in
  if (7 <? n)%nat then
    let xpath := item parts (n - 1) in
    let strategy := item parts (n - 2) in
    let index := item parts 0 in
    let group := item parts 1 in
    match first_action (take (n - 4) (drop 2 parts)) with
    | Some k =>
        let action_idx := (2 + k)%nat in
        let element := join_commas (take (action_idx - 2) (drop 2 parts)) in
        let action := item parts action_idx in
        let value :=
          join_commas (take (n - 2 - (action_idx + 1)) (drop (action_idx + 1) parts)) in
        [index; group; element; action; value; strategy; xpath]
    | None => take 7 parts
    end
  else parts.

(** The row [fix_csv_quoting] passes to [writer.writerow] for one line. *)
Definition fixed_row (line : string) : list string :=
  repair_parts (split_line line).

End Generator.

(** ** Vocabulary of the properties *)
Module Terms.

(** A row that is an [Input] of [element_name]. *)
Definition is_input_of (element_name : string) (r : gmap string string) : Prop :=
  get r "Element" = Some element_name ∧ get r "Action" = Some "Input".

#[global] Instance is_input_of_dec e r : Decision (is_input_of e r).
Proof. unfold is_input_of. apply _. Defined.

(** Rows used as concrete inputs. *)
Definition click_row (element xpath : string) : gmap string string :=
  <["Element" := element]> (<["Action" := "click"]> (<["XPath" := xpath]> ∅)).

Definition input_row (element value : string) : gmap string string :=
  <["Element" := element]> (<["Action" := "Input"]> (<["Value" := value]> ∅)).

(** A row that is a click on [element_name]. *)
Definition is_click_of (element_name : string) (r : gmap string string) : Prop :=
  get r "Element" = Some element_name ∧ get r "Action" = Some "click".

(** The test of the page loop of [validate]. *)
Definition page_matches (p ep : string) : bool :=
  PyStr.contains (PyStr.lower ep) (PyStr.lower p)
  || PyStr.contains (PyStr.lower p) (PyStr.lower ep).

(** A full row of the six columns. *)
Definition full_row (group element action value strategy xpath : string)
  : gmap string string :=
  <["Group" := group]> (<["Element" := element]> (<["Action" := action]>
    (<["Value" := value]> (<["Strategy" := strategy]>
      (<["XPath" := xpath]> ∅))))).

(** A click row of a page. *)
Definition page_row (group : string) : gmap string string :=
  full_row group "nextButton" "click" "" "id" "//*[@id='next']".

(** The page indices the sequence check resolves, unresolved rows left
    out. *)
Definition resolved_indices (rows : list (gmap string string)) : list Z :=
  List.filter (fun p => negb (p =? -1)) (map Validator.page_index_of rows).

(** How many elements of [l] are below [x]. *)
Definition below (x : Z) (l : list Z) : nat :=
  length (List.filter (fun y => y <? x) l).

(** The number of inversions of [l]: pairs of positions [i < j] with
    [l[i] > l[j]]. *)
Fixpoint inversions (l : list Z) : nat :=
  match l with
  | [] => 0
  | x :: l' => below x l' + inversions l'
  end.

(** The ERROR of the sequence check for row number [i]. *)
Definition out_of_order (i : Z) (r : gmap string string)
  : Validator.ValidationResult :=
  Validator.mkResult Validator.ERROR i "Group"
    ("Page '" +:+ get_or r "Group" ""
     +:+ "' appears after a later page. Expected order: "
     +:+ PyStr.repr_list Validator.PAGE_ORDER).

(** A row that records a boolean for [element]: an [Input] whose value is
    one of the four literals. *)
Definition is_bool_input (element : string) (r : gmap string string) : Prop :=
  get_or r "Action" "" = "Input"
  ∧ get_or r "Element" "" = element
  ∧ get_or r "Value" "" ∈ ["true"; "false"; "True"; "False"].

(** The rule of the specification's example. *)
Definition FIP_RULE : Validator.ConditionalRule :=
  Validator.mkRule "isApplyingForFipApplication" (Some true)
    ["fipPlanSelection"] [].

(** The WARNING of that rule. *)
Definition FIP_WARNING : Validator.ValidationResult :=
  Validator.mkResult Validator.WARNING 0 "fipPlanSelection"
    "Field 'fipPlanSelection' may be required when 'isApplyingForFipApplication' is True".

(** The ERROR of the structure check for a column. *)
Definition missing_error (col : string) : Validator.ValidationResult :=
  Validator.mkResult Validator.ERROR 0 col ("Missing required column: " +:+ col).


End Terms.

(** ** Vocabulary of the further properties *)
Module MoreTerms.

(** The test of the inner loop of [_validate_sequence]. *)
Definition page_match (group page : string) : bool :=
  PyStr.contains page group || PyStr.contains group page.

(** A row the sequence check resolves to a page that comes before the
    page of a row above it. *)
Definition regresses (rows : list (gmap string string)) (n : nat)
    (r : gmap string string) : Prop :=
  rows !! n = Some r
  ∧ Validator.page_index_of r ≠ -1
  ∧ ∃ (k : nat) (r' : gmap string string),
      (k < n)%nat ∧ rows !! k = Some r'
      ∧ Validator.page_index_of r < Validator.page_index_of r'.

(** A row whose [Group] cell is empty or absent. *)
Definition no_group (r : gmap string string) : Prop :=
  get r "Group" = Some "" ∨ get r "Group" = None.

(** A row on which the content check raises no ERROR: the [Action] is
    absent, empty or valid, and the [XPath] is absent, empty or starts
    with a slash. *)
Definition row_fine (r : gmap string string) : Prop :=
  get_or r "Action" "" ∈ ["" ; "click"; "Input"]
  ∧ (get_or r "XPath" "" = "" ∨ PyStr.startswith (get_or r "XPath" "") "/" = true).

(** The first row has every required column. *)
Definition header_complete (rows : list (gmap string string)) : Prop :=
  match rows with
  | [] => False
  | first_row :: _ =>
      ∀ col, col ∈ Validator.REQUIRED_COLUMNS → col ∈ dom first_row
  end.

(** The WARNING of the content check for an [Input] without value. *)
Definition empty_value_warning (i : Z) : Validator.ValidationResult :=
  Validator.mkResult Validator.WARNING i "Value" "Input action with empty value".

(** An [Input] row whose [Value] cell is empty or absent. *)
Definition input_without_value (r : gmap string string) : Prop :=
  get_or r "Action" "" = "Input"
  ∧ (get r "Value" = None ∨ get r "Value" = Some "").

#[global] Instance input_without_value_dec r : Decision (input_without_value r).
Proof. unfold input_without_value. apply _. Defined.

(** The boolean the conditional-rule check records for a row. *)
Definition recorded_bool (r : gmap string string) : bool :=
  bool_decide (PyStr.lower (get_or r "Value" "") = "true").

(** The fields of the CSV rows, as the conditional-rule check sees them. *)
Definition element_present (rows : list (gmap string string)) (f : string) : bool :=
  bool_decide (f ∈ Validator.present_elements rows).

(** The fields of a schema, in document order. *)
Definition all_fields (schema : list (list (list Validator.SchemaField)))
  : list Validator.SchemaField :=
  concat (concat schema).

(** A field with a non-empty [id]. *)
Definition has_id (f : Validator.SchemaField) (i : string) : Prop :=
  Validator.f_id f = Some i ∧ i ≠ "".

(** The XPath a key of a field or option holds, paired with the
    identifier registered for it. *)
Definition registration (key : option string) (ident : string)
  : list (string * string) :=
  match key with
  | Some xpath => [(xpath, ident)]
  | None => []
  end.

(** What a field writes into the XPath registry, in the order of the
    writes. *)
Definition field_registrations (f : Validator.SchemaField)
  : list (string * string) :=
  let field_id := default "" (Validator.f_id f) in
  (if PyStr.truthy field_id then
     registration (Validator.f_xpath f) field_id
     ++ registration (Validator.f_xpath_true f) (field_id +:+ "_true")
     ++ registration (Validator.f_xpath_false f) (field_id +:+ "_false")
     ++ registration (Validator.f_xpath_trigger f) (field_id +:+ "_trigger")
   else [])
  ++ flat_map (fun o => registration (Validator.o_xpath o)
                          (default "" (Validator.o_value o)))
       (Validator.f_options f).

(** One write into the XPath registry. *)
Definition write_registration (registry : gmap string string)
    (kv : string * string) : gmap string string :=
  <[kv.1 := kv.2]> registry.

(** All the writes into the XPath registry, in order. *)
Definition schema_registrations (schema : list (list (list Validator.SchemaField)))
  : list (string * string) :=
  flat_map field_registrations (all_fields schema).

(** A string made of ASCII digits only. *)
Fixpoint all_digits (d : string) : bool :=
  match d with
  | EmptyString => true
  | String c d' => PyStr.is_digit c && all_digits d'
  end.

(** The shape of a "has X" flag with its count, as [parse_scenario]
    leaves them. *)
Definition flag_count_shape (has : option bool) (count : option Z) : Prop :=
  (has = None ∧ count = None)
  ∨ (has = Some false ∧ count = Some 0)
  ∨ (has = Some true ∧ ∃ n, count = Some n ∧ 0 ≤ n).

(** The first entry of a keyword table whose keyword occurs in [text]. *)
Definition first_hit (table : list (string * string)) (text : string)
    (n : nat) (value : string) : Prop :=
  ∃ keyword, table !! n = Some (keyword, value)
    ∧ PyStr.contains keyword text = true
    ∧ ∀ (j : nat) (k v : string), (j < n)%nat → table !! j = Some (k, v)
        → PyStr.contains k text = false.

(** The XPath of a row holds one of the two label markers. *)
Definition labelled (r : gmap string string) : bool :=
  PyStr.contains "label[1]" (get_or r "XPath" "")
  || PyStr.contains "label[2]" (get_or r "XPath" "").

(** A regular-expression pattern that is a plain literal: letters, digits,
    underscores and hyphens. *)
Fixpoint plain_pattern (p : string) : bool :=
  match p with
  | EmptyString => true
  | String c p' => (PyStr.is_word c || bool_decide (c = "-"%char)) && plain_pattern p'
  end.

(** A click on an element whose name contains the trigger text. *)
Definition trigger_click (trigger_text : string) (r : gmap string string) : bool :=
  PyStr.contains (PyStr.lower trigger_text) (PyStr.lower (get_or r "Element" ""))
  && bool_decide (get_or r "Action" "" = "click").

(** A click whose XPath mentions an option. *)
Definition option_click (r : gmap string string) : bool :=
  bool_decide (get_or r "Action" "" = "click")
  && PyStr.contains "option" (PyStr.lower (get_or r "XPath" "")).

(** The kind of a check of [validate], by its name: the informational
    row count, the two advisory checks, the blocking checks. *)
Definition check_kind (c : Scenario.ValidationCheck) : Prop :=
  (Scenario.name c = "Row Count" ∧ Scenario.result c = Scenario.INFO)
  ∨ (Scenario.name c ∈ ["Beneficiary Count"; "OTP Verifications"]
     ∧ (Scenario.result c = Scenario.PASS ∨ Scenario.result c = Scenario.WARN))
  ∨ (Scenario.name c ∈ ["Page Coverage"; "Employment Status"; "Marital Status";
                        "Has Beneficiary"; "Has Joint Partner";
                        "LinCU Card Application"; "FIP Application";
                        "All PEP Questions = No"; "All FATCA Questions = No"]
     ∧ (Scenario.result c = Scenario.PASS ∨ Scenario.result c = Scenario.FAIL)).

(** A block of [validate] that emits at most one check, named [n], whose
    result is PASS or [other]. *)
Definition block_of (n : string) (other : Scenario.CheckResult)
    (l : list Scenario.ValidationCheck) : Prop :=
  l = [] ∨ ∃ c, l = [c] ∧ Scenario.name c = n
              ∧ (Scenario.result c = Scenario.PASS ∨ Scenario.result c = other).

(** A text without double quote. *)
Fixpoint quote_free (s : string) : bool :=
  match s with
  | EmptyString => true
  | String c s' => negb (Ascii.eqb c Generator.quote_char) && quote_free s'
  end.

(** The number of commas of a text. *)
Fixpoint count_commas (s : string) : nat :=
  match s with
  | EmptyString => 0
  | String c s' =>
      ((if Ascii.eqb c Generator.comma_char then 1 else 0) + count_commas s')%nat
  end.

(** A text that is empty or does not start with a double quote. *)
Definition no_leading_quote (s : string) : bool :=
  match s with
  | EmptyString => true
  | String c _ => negb (Ascii.eqb c Generator.quote_char)
  end.

End MoreTerms.

(** * Properties *)

(** ** String primitives *)
Module PyStrFacts.
Import PyStr.

Lemma prefix_empty (s : string) : String.prefix EmptyString s = true.
Proof. by destruct s. Qed.

(** The empty string occurs in every string. *)
Lemma contains_empty (s : string) : contains EmptyString s = true.
Proof. by destruct s. Qed.

Lemma lower_empty : lower EmptyString = EmptyString.
Proof. done. Qed.

End PyStrFacts.

(** ** Row lookups *)

Lemma get_or_Some (row : gmap string string) k d v :
  get row k = Some v → get_or row k d = v.
Proof. unfold get, get_or. by intros ->. Qed.

Lemma get_or_None (row : gmap string string) k d :
  get row k = None → get_or row k d = d.
Proof. unfold get, get_or. by intros ->. Qed.

(** ** The scenario validator *)
Module ScenarioProofs.
Import Scenario Terms.

Lemma get_field_value_cons (r : gmap string string) rows e :
  get_field_value (r :: rows) e =
  if decide (is_input_of e r) then get r "Value" else get_field_value rows e.
Proof.
  simpl. unfold is_input_of.
  destruct (decide _) as [[-> ->]|Hn].
  - by rewrite !bool_decide_eq_true_2.
  - repeat case_bool_decide; simpl; try done. by destruct Hn.
Qed.

(** [get_field_value] returns the [Value] cell of the first [Input] row of
    the element. *)
Lemma get_field_value_first (pre post : list (gmap string string)) r e :
  Forall (fun r' => ¬ is_input_of e r') pre →
  is_input_of e r →
  get_field_value (pre ++ r :: post) e = get r "Value".
Proof.
  intros Hpre Hr. induction Hpre as [|r' pre Hr' _ IH].
  - simpl app. rewrite get_field_value_cons. by rewrite decide_True.
  - change ((r' :: pre) ++ r :: post) with (r' :: (pre ++ r :: post)).
    rewrite get_field_value_cons. by rewrite decide_False.
Qed.

(** [get_field_value] does not look at click rows. *)
Lemma get_field_value_drops_clicks (rows : list (gmap string string)) e :
  get_field_value
    (List.filter (fun r => negb (bool_decide (get r "Action" = Some "click"))) rows) e
  = get_field_value rows e.
Proof.
  induction rows as [|r rows IH]; [done|].
  cbn [List.filter]. case_bool_decide as Hc; cbn [negb].
  - rewrite IH, (get_field_value_cons r). rewrite decide_False; [done|].
    intros [_ Hi]. congruence.
  - rewrite !get_field_value_cons, IH. done.
Qed.

Lemma click_not_input e r : is_click_of e r → ¬ is_input_of e r.
Proof. intros [_ Hc] [_ Hi]. congruence. Qed.

Lemma click_value_single (r : gmap string string) e :
  is_click_of e r →
  click_value [r] e =
  if PyStr.contains "label[1]" (get_or r "XPath" "") then Some true
  else if PyStr.contains "label[2]" (get_or r "XPath" "") then Some false
  else None.
Proof.
  intros [He Ha]. cbn [click_value]. rewrite He, Ha.
  rewrite !bool_decide_eq_true_2 by done. cbn [andb].
  by repeat destruct (PyStr.contains _ _).
Qed.

(** C1, as stated, fails: a lone click row whose XPath contains
    [label[2]] does not always yield false, because [label[1]] is looked
    for first. *)
Lemma boolean_value_label2_counterexample :
  PyStr.contains "label[2]" "//div/label[1]/span/label[2]" = true
  ∧ get_boolean_value
      [click_row "isHeadOfState" "//div/label[1]/span/label[2]"]
      "isHeadOfState" = Some true
  ∧ get_boolean_value
      [click_row "isHeadOfState" "//div/label[1]/span/label[2]"]
      "isHeadOfState" ≠ Some false.
Proof. split; [reflexivity|]. split; [reflexivity|]. vm_compute. discriminate. Qed.

(** C1 (amended): a lone click row of the element whose XPath contains
    [label[2]] and not [label[1]] yields false; with an [Input] row of the
    element whose [Value] is ["true"] in the CSV as well, the result is
    true, whether the [Input] row comes after or before the click row and
    whatever the XPath of the click row. *)
Theorem boolean_value_input_precedence
    (click input : gmap string string) (xpath : string) :
  is_click_of "isHeadOfState" click →
  get click "XPath" = Some xpath →
  is_input_of "isHeadOfState" input →
  get input "Value" = Some "true" →
  (PyStr.contains "label[2]" xpath = true →
   PyStr.contains "label[1]" xpath = false →
   get_boolean_value [click] "isHeadOfState" = Some false)
  ∧ get_boolean_value [click; input] "isHeadOfState" = Some true
  ∧ get_boolean_value [input; click] "isHeadOfState" = Some true.
Proof.
  intros Hc Hx Hi Hv. split; [|split].
  - intros H2 H1. unfold get_boolean_value.
    rewrite get_field_value_cons, decide_False by by apply click_not_input.
    cbn [get_field_value]. rewrite click_value_single by done.
    rewrite (get_or_Some _ _ _ _ Hx). by rewrite H1, H2.
  - unfold get_boolean_value.
    rewrite (get_field_value_first [click] [] input); [by rewrite Hv| |done].
    constructor; [by apply click_not_input|constructor].
  - unfold get_boolean_value.
    rewrite (get_field_value_first [] [click] input); [by rewrite Hv| |done].
    constructor.
Qed.

(** The input of the specification: the click row alone, then followed by
    the [Input] row. *)
Lemma boolean_value_input_precedence_witness :
  (get_boolean_value
     [click_row "isHeadOfState" ".../label[2]"] "isHeadOfState" = Some false)
  ∧ get_boolean_value
      [click_row "isHeadOfState" ".../label[2]";
       input_row "isHeadOfState" "true"] "isHeadOfState" = Some true
  ∧ get_boolean_value
      [input_row "isHeadOfState" "true";
       click_row "isHeadOfState" ".../label[2]"] "isHeadOfState" = Some true.
Proof.
  destruct (boolean_value_input_precedence
              (click_row "isHeadOfState" ".../label[2]")
              (input_row "isHeadOfState" "true") ".../label[2]")
    as (H1 & H2 & H3).
  - split; reflexivity.
  - reflexivity.
  - split; reflexivity.
  - reflexivity.
  - split; [apply H1; reflexivity | split; [exact H2 | exact H3]].
Defined.


(** C10, as stated, fails: an [Input] row of the element without a
    [Value] cell makes [get_field_value] return [None], so the click rows
    are consulted, and the result is unset when there is none. *)
Lemma boolean_value_input_unset_counterexample :
  is_input_of "hasBeneficiary"
    (<["Element" := "hasBeneficiary"]> (<["Action" := "Input"]> ∅))
  ∧ get_boolean_value
      [<["Element" := "hasBeneficiary"]> (<["Action" := "Input"]> ∅)]
      "hasBeneficiary" = None
  ∧ ¬ is_Some (get_boolean_value
                 [<["Element" := "hasBeneficiary"]> (<["Action" := "Input"]> ∅)]
                 "hasBeneficiary").
Proof.
  split; [split; reflexivity|]. split; [reflexivity|].
  intros [b Hb]. vm_compute in Hb. discriminate.
Qed.

(** C10 (amended): when the first [Input] row of an element has a [Value]
    cell [v], [get_boolean_value] returns a set boolean, true exactly when
    [v] lowercases to ["true"]; the click rows play no part: any CSV with
    the same rows other than clicks gives the same result. *)
Theorem boolean_value_of_first_input
    (pre post : list (gmap string string)) (r : gmap string string)
    (e v : string) :
  Forall (fun r' => ¬ is_input_of e r') pre →
  is_input_of e r →
  get r "Value" = Some v →
  get_boolean_value (pre ++ r :: post) e
  = Some (bool_decide (PyStr.lower v = "true"))
  ∧ ∀ rows2 : list (gmap string string),
      List.filter (fun r' => negb (bool_decide (get r' "Action" = Some "click"))) rows2
      = List.filter (fun r' => negb (bool_decide (get r' "Action" = Some "click")))
          (pre ++ r :: post) →
      get_boolean_value rows2 e = Some (bool_decide (PyStr.lower v = "true")).
Proof.
  intros Hpre Hr Hv.
  assert (Hfv : get_field_value (pre ++ r :: post) e = Some v).
  { by rewrite get_field_value_first. }
  split.
  - unfold get_boolean_value. by rewrite Hfv.
  - intros rows2 Heq. unfold get_boolean_value.
    rewrite <- (get_field_value_drops_clicks rows2), Heq.
    by rewrite get_field_value_drops_clicks, Hfv.
Qed.

(** A value that is not ["true"] in any case, as the first [Input] of the
    element, after a click row on [label[1]] and before an [Input] of
    ["true"]; and a value that lowercases to ["true"]. *)
Lemma boolean_value_of_first_input_witness :
  get_boolean_value
    ([click_row "hasBeneficiary" "//label[1]"]
     ++ input_row "hasBeneficiary" "yes" :: [input_row "hasBeneficiary" "true"])
    "hasBeneficiary" = Some false
  ∧ get_boolean_value
      ([click_row "hasBeneficiary" "//label[2]"]
       ++ input_row "hasBeneficiary" "TRUE" :: [])
      "hasBeneficiary" = Some true.
Proof.
  split.
  - refine (proj1 (boolean_value_of_first_input
             [click_row "hasBeneficiary" "//label[1]"]
             [input_row "hasBeneficiary" "true"]
             (input_row "hasBeneficiary" "yes") "hasBeneficiary" "yes" _ _ _)).
    + constructor; [|constructor]. intros [_ Hi]. vm_compute in Hi.
      discriminate.
    + split; reflexivity.
    + reflexivity.
  - refine (proj1 (boolean_value_of_first_input
             [click_row "hasBeneficiary" "//label[2]"] []
             (input_row "hasBeneficiary" "TRUE") "hasBeneficiary" "TRUE" _ _ _)).
    + constructor; [|constructor]. intros [_ Hi]. vm_compute in Hi.
      discriminate.
    + split; reflexivity.
    + reflexivity.
Defined.

(** C6: the requirements parsed from the scenario of the specification. *)
Theorem parse_scenario_example :
  parse_scenario
    "Single male, full-time permanent, no beneficiaries, 2 joint partners"
  = {| employment_status := Some "FULL TIME PERMANENT";
       employer := None;
       sector := None;
       salary_range := None;
       marital_status := Some "SINGLE";
       gender := Some "male";
       has_beneficiary := Some false;
       beneficiary_count := Some 0;
       has_joint_partner := Some true;
       joint_partner_count := Some 2;
       lincu_card := None;
       fip_application := None;
       fip_plan := None;
       permanent_address_same := None;
       all_pep_no := None;
       all_fatca_no := None;
       pep_positive_fields := [] |}.
Proof. vm_compute. reflexivity. Qed.


(** *** Page coverage *)

Lemma elem_of_pages_normalized (rows : list (gmap string string)) ep :
  ep ∈ pages_normalized rows ↔
  ep ∈ EXPECTED_PAGES
  ∧ ∃ r, r ∈ rows ∧ page_matches (get_or r "Group" "") ep = true.
Proof.
  unfold pages_normalized.
  rewrite elem_of_list_to_set, list_elem_of_In, in_flat_map. split.
  - intros (p & Hp & Hep). apply filter_In in Hep as [Hep Hm].
    apply list_elem_of_In in Hp, Hep.
    apply elem_of_elements, elem_of_list_to_set, list_elem_of_In in Hp.
    apply in_map_iff in Hp as (r & <- & Hr). apply list_elem_of_In in Hr.
    split; [done|]. by exists r.
  - intros (Hep & r & Hr & Hm). exists (get_or r "Group" ""). split.
    + apply list_elem_of_In, elem_of_elements, elem_of_list_to_set.
      apply list_elem_of_In, in_map_iff. exists r.
      split; [done|]. by apply list_elem_of_In.
    + apply filter_In. split; [by apply list_elem_of_In|done].
Qed.

Lemma empty_group_matches ep : page_matches "" ep = true.
Proof.
  unfold page_matches. rewrite PyStrFacts.lower_empty.
  by rewrite PyStrFacts.contains_empty, orb_true_r.
Qed.

Lemma pages_normalized_empty_group (rows : list (gmap string string)) r :
  r ∈ rows → get_or r "Group" "" = "" →
  pages_normalized rows = list_to_set EXPECTED_PAGES.
Proof.
  intros Hr Hg. apply set_eq. intros ep.
  rewrite elem_of_pages_normalized, elem_of_list_to_set. split.
  - by intros [? _].
  - intros Hep. split; [done|]. exists r. split; [done|].
    rewrite Hg. apply empty_group_matches.
Qed.

(** C9: when some row has an empty [Group] cell, or no [Group] cell at
    all, the page-coverage check is PASS and reports 6/6 pages, whatever
    the other rows are. *)
Theorem page_coverage_empty_group
    (set_repr : gset string → string)
    (rows : list (gmap string string)) (r : gmap string string) :
  r ∈ rows →
  get r "Group" = Some "" ∨ get r "Group" = None →
  page_coverage_check set_repr rows
  = mkCheck "Page Coverage" PASS "All 6 pages" "6/6 pages" "All pages covered".
Proof.
  intros Hr Hg.
  assert (Hgroup : get_or r "Group" "" = "").
  { destruct Hg as [Hg|Hg]; [by apply get_or_Some | by apply get_or_None]. }
  unfold page_coverage_check.
  rewrite (pages_normalized_empty_group rows r Hr Hgroup).
  rewrite difference_diag_L. rewrite bool_decide_eq_true_2 by done.
  reflexivity.
Qed.

(** A CSV whose rows all lack the [Group] column, and one where a single
    row with an empty [Group] sits among rows of one page. *)
Lemma page_coverage_empty_group_witness :
  page_coverage_check (fun _ => "") [click_row "mobileNo" "//input"]
  = mkCheck "Page Coverage" PASS "All 6 pages" "6/6 pages" "All pages covered"
  ∧ page_coverage_check (fun _ => "")
      [<["Group" := "Contact Info"]> (click_row "mobileNo" "//input");
       <["Group" := ""]> (click_row "next" "//button")]
    = mkCheck "Page Coverage" PASS "All 6 pages" "6/6 pages" "All pages covered".
Proof.
  split.
  - apply (page_coverage_empty_group _ _ (click_row "mobileNo" "//input")).
    + apply list_elem_of_here.
    + right. reflexivity.
  - apply (page_coverage_empty_group _ _
             (<["Group" := ""]> (click_row "next" "//button"))).
    + apply list_elem_of_further, list_elem_of_here.
    + left. reflexivity.
Defined.

(** *** The verdict of [validate] *)

Lemma no_fail_iff (checks : list ValidationCheck) :
  (Z.of_nat (length (List.filter is_fail checks)) =? 0) = true
  ↔ Forall (fun c => result c ≠ FAIL) checks.
Proof.
  rewrite Z.eqb_eq. induction checks as [|c checks IH].
  - split; [constructor|done].
  - cbn [List.filter]. unfold is_fail at 1. case_bool_decide as Hc.
    + split; [simpl; lia|]. intros HF. by inversion_clear HF.
    + rewrite IH. split; [by constructor|]. intros HF. by inversion_clear HF.
Qed.

Lemma otp_check_result (rows : list (gmap string string)) :
  result (otp_check rows)
  = if 2 <=? count_element_occurrences rows "otp-input-0" then PASS else WARN.
Proof. done. Qed.

(** C8: [validate] answers [passed = true] exactly when no emitted check
    is FAIL.  The OTP check is the last one emitted; it is PASS when
    ['otp-input-0'] occurs at least twice and WARN otherwise, never FAIL,
    so [passed] is decided by the checks before it. *)
Theorem validate_passed_iff_no_fail
    (set_repr : gset string → string)
    (rows : list (gmap string string)) (scenario : string) :
  ((validate set_repr rows scenario).1 = true
   ↔ Forall (fun c => result c ≠ FAIL) (validate set_repr rows scenario).2)
  ∧ ∃ before : list ValidationCheck,
      (validate set_repr rows scenario).2 = before ++ [otp_check rows]
      ∧ result (otp_check rows)
        = (if 2 <=? count_element_occurrences rows "otp-input-0"
           then PASS else WARN)
      ∧ result (otp_check rows) ≠ FAIL
      ∧ ((validate set_repr rows scenario).1 = true
         ↔ Forall (fun c => result c ≠ FAIL) before).
Proof.
  assert (Hotp : result (otp_check rows) ≠ FAIL).
  { rewrite otp_check_result. by destruct (2 <=? _). }
  unfold validate. cbn [fst snd]. split; [apply no_fail_iff|].
  eexists. split; [reflexivity|]. split; [apply otp_check_result|].
  split; [done|]. rewrite no_fail_iff, Forall_app. split; [by intros [? _]|].
  intros HF. split; [done|]. by constructor.
Qed.


(** The end-to-end case of the specification: six pages, the employment
    dropdown resolving to the expected label, two OTP inputs. *)
Example validate_end_to_end :
  let rows :=
    [full_row "Contact Info" "otp-input-0" "Input" "1" "id" "//*[@id='otp-input-0']";
     full_row "Documents" "uploadId" "click" "" "id" "//*[@id='uploadId']";
     full_row "Additional Details" "Employment Status" "click" "" "text"
       "//div[text()='Employment Status']";
     full_row "Additional Details" "FULL TIME PERMANENT" "click" "" "text"
       "//li[@role='option'][1]";
     full_row "Other Products" "nextButton" "click" "" "id" "//*[@id='next']";
     full_row "PEP / FATCA" "isHeadOfState" "click" "" "absolute"
       "/html/body/div/label[2]";
     full_row "PDF / Other Details" "otp-input-0" "Input" "1" "id"
       "//*[@id='otp-input-0']"] in
  validate (fun _ => "") rows "Full-time permanent, all PEP answers no"
  = (true,
     [mkCheck "Row Count" INFO "100-400 typical" "7" "Total rows in generated CSV";
      mkCheck "Page Coverage" PASS "All 6 pages" "6/6 pages" "All pages covered";
      mkCheck "Employment Status" PASS "FULL TIME PERMANENT" "FULL TIME PERMANENT" "";
      mkCheck "All PEP Questions = No" PASS "All False" "All False" "";
      mkCheck "OTP Verifications" PASS "2 (initial + final)" "2" ""]).
Proof. vm_compute. reflexivity. Qed.

End ScenarioProofs.

(** ** The structural validator *)
Module ValidatorProofs.
Import Validator Terms.

(** *** Structure check *)

Lemma missing_column_spec (first_row : gmap string string) col :
  missing_column first_row col
  = if decide (col ∈ dom first_row) then [] else [missing_error col].
Proof. unfold missing_column. by case_bool_decide; case_decide. Qed.

Lemma existsb_is_error_app (l1 l2 : list ValidationResult) :
  existsb is_error (l1 ++ l2) = existsb is_error l1 || existsb is_error l2.
Proof. apply existsb_app. Qed.

Lemma structure_has_error (r : gmap string string) rs col :
  col ∈ REQUIRED_COLUMNS → col ∉ dom r →
  existsb is_error (_validate_structure (r :: rs)) = true.
Proof.
  intros Hcol Hdom. apply existsb_exists. exists (missing_error col).
  split; [|done]. cbn [_validate_structure].
  apply in_concat. exists (missing_column r col). split.
  - apply in_map. by apply list_elem_of_In.
  - rewrite missing_column_spec, decide_False by done. by left.
Qed.

(** C7: for a non-empty CSV the structure check emits, for each required
    column, one ERROR if the first row lacks it and nothing otherwise, and
    nothing else; it reads the first row only; and a missing required
    column makes [validate_csv] answer [passed = false]. *)
Theorem structure_check_missing_columns
    (rules : list ConditionalRule)
    (r : gmap string string) (rs : list (gmap string string)) :
  (∀ col, col ∈ REQUIRED_COLUMNS →
     List.filter (fun x => bool_decide (field x = col))
       (_validate_structure (r :: rs))
     = if decide (col ∈ dom r) then [] else [missing_error col])
  ∧ Forall (fun x => severity x = ERROR ∧ field x ∈ REQUIRED_COLUMNS
                     ∧ field x ∉ dom r)
      (_validate_structure (r :: rs))
  ∧ (∀ rs2, _validate_structure (r :: rs2) = _validate_structure (r :: rs))
  ∧ ((∃ col, col ∈ REQUIRED_COLUMNS ∧ col ∉ dom r) →
     (validate_csv rules (r :: rs)).1 = false).
Proof.
  split; [|split; [|split]].
  - intros col Hcol. cbn [_validate_structure REQUIRED_COLUMNS map concat].
    rewrite !missing_column_spec. unfold REQUIRED_COLUMNS in Hcol.
    set_unfold in Hcol. destruct_or!; try done; subst col;
      repeat case_decide; reflexivity.
  - cbn [_validate_structure REQUIRED_COLUMNS map concat].
    rewrite !missing_column_spec.
    repeat case_decide; cbn [app]; repeat constructor;
      cbn [field missing_error]; first [done | set_solver].
  - done.
  - intros (col & Hcol & Hdom). unfold validate_csv. cbn [fst].
    rewrite existsb_is_error_app, (structure_has_error r rs col) by done.
    done.
Qed.

(** The structure check on a CSV whose header lacks [Value] and [XPath]. *)
Lemma structure_check_missing_columns_witness :
  (validate_csv [FIP_RULE]
     [<["Group" := "Contact Info"]> (<["Element" := "mobileNo"]>
        (<["Action" := "click"]> (<["Strategy" := "id"]> ∅)))]).1 = false.
Proof.
  apply (structure_check_missing_columns [FIP_RULE] _ []).
  exists "Value". split.
  - unfold REQUIRED_COLUMNS. set_solver.
  - vm_compute. intros H. discriminate H.
Defined.

(** *** Conditional rules *)

Lemma check_rule_warnings (rows : list (gmap string string))
    (states : gmap string bool) (rule : ConditionalRule) :
  Forall (fun x => severity x = WARNING) (check_rule rows states rule).
Proof.
  unfold check_rule. destruct (states !! _) as [actual|]; [|constructor].
  destruct (eq_trigger _ _).
  - induction (required_fields rule) as [|f fs IH]; [constructor|].
    cbn [map concat]. apply Forall_app. split; [|done].
    case_bool_decide; repeat constructor.
  - induction (excluded_fields rule) as [|f fs IH]; [constructor|].
    cbn [map concat]. apply Forall_app. split; [|done].
    case_bool_decide; repeat constructor.
Qed.

Lemma conditionals_warnings (rules : list ConditionalRule)
    (rows : list (gmap string string)) :
  Forall (fun x => severity x = WARNING) (_validate_conditionals rules rows).
Proof.
  unfold _validate_conditionals. induction rules as [|rule rules IH].
  - constructor.
  - cbn [map concat]. apply Forall_app. split; [|done].
    apply check_rule_warnings.
Qed.

Lemma warnings_no_error (l : list ValidationResult) :
  Forall (fun x => severity x = WARNING) l → existsb is_error l = false.
Proof.
  induction 1 as [|x l Hx _ IH]; [done|].
  cbn [existsb]. unfold is_error at 1. rewrite Hx, IH. done.
Qed.

Lemma no_error_iff (l : list ValidationResult) :
  negb (existsb is_error l) = true ↔ Forall (fun x => severity x ≠ ERROR) l.
Proof.
  induction l as [|x l IH].
  - split; [constructor|done].
  - cbn [existsb]. rewrite negb_orb, andb_true_iff, IH.
    unfold is_error. rewrite negb_true_iff, bool_decide_eq_false.
    split; [intros []; by constructor|]. intros HF. by inversion_clear HF.
Qed.

(** C4: every result of the conditional-rule check is a WARNING, and the
    verdict of [validate_csv] is the absence of ERROR among the results,
    which is the absence of ERROR among those of the other three checks:
    the rules do not change it. *)
Theorem conditionals_never_block
    (rules : list ConditionalRule) (rows : list (gmap string string)) :
  Forall (fun x => severity x = WARNING) (_validate_conditionals rules rows)
  ∧ ((validate_csv rules rows).1 = true
     ↔ Forall (fun x => severity x ≠ ERROR) (validate_csv rules rows).2)
  ∧ (validate_csv rules rows).1
    = negb (existsb is_error
              (_validate_structure rows ++ _validate_content rows
               ++ _validate_sequence rows))
  ∧ ∀ rules2, (validate_csv rules2 rows).1 = (validate_csv rules rows).1.
Proof.
  assert (Hv : ∀ rs, (validate_csv rs rows).1
    = negb (existsb is_error
              (_validate_structure rows ++ _validate_content rows
               ++ _validate_sequence rows))).
  { intros rs. unfold validate_csv. cbn [fst].
    rewrite !existsb_is_error_app.
    rewrite (warnings_no_error _ (conditionals_warnings rs rows)).
    by rewrite !orb_false_r. }
  split; [apply conditionals_warnings|]. split; [apply no_error_iff|].
  split; [apply Hv|]. intros rules2. by rewrite !Hv.
Qed.

(** *** Content check *)

(** The WARNING of the content check for the [Group] of a row: emitted
    exactly when the [Group] is non-empty and is contained in no canonical
    page name. *)
Lemma content_group_warning_iff (i : Z) (r : gmap string string) :
  mkResult WARNING i "Group"
    ("Unknown group/page: '" +:+ get_or r "Group" "" +:+ "'")
    ∈ content_row i r
  ↔ PyStr.truthy (get_or r "Group" "") = true
    ∧ existsb (fun p => PyStr.contains (get_or r "Group" "") p) PAGE_ORDER
      = false.
Proof.
  unfold content_row, _validate_xpath. rewrite !elem_of_app.
  destruct (PyStr.truthy (get_or r "Group" "")) eqn:Hg;
    destruct (existsb _ PAGE_ORDER) eqn:Hp; cbn [andb negb].
  all: split; [|intros [? ?]; try discriminate; do 4 right; by left].
  all: intros [H|[H|[H|[H|H]]]].
  all: repeat match type of H with
       | _ ∈ (if ?b then _ else _) => destruct b
       end.
  all: try (by apply elem_of_nil in H).
  all: try (apply list_elem_of_singleton in H; discriminate H).
  all: done.
Qed.


(** C2: the content check tests one direction only, [group in p].  A
    [Group] that contains a canonical page name without being contained
    in one gets the WARNING, while the sequence check resolves the same
    [Group] to its page. *)
Theorem content_group_check_one_direction :
  let r := full_row "Contact Info Page" "mobileNo" "Input" "555-1234" "id"
             "//*[@id='mobileNo']" in
  PyStr.contains "Contact Info" (get_or r "Group" "") = true
  ∧ _validate_content [r]
    = [mkResult WARNING 1 "Group" "Unknown group/page: 'Contact Info Page'"]
  ∧ page_index_of r = 0
  ∧ _validate_sequence [r] = [].
Proof. vm_compute. repeat split; reflexivity. Qed.


(** *** The boolean states of the conditional-rule check *)

Lemma track_boolean_other (m : gmap string bool) r e :
  ¬ is_bool_input e r → track_boolean m r !! e = m !! e.
Proof.
  intros Hn. unfold track_boolean, in_list.
  destruct (bool_decide (get_or r "Action" "" = "Input")) eqn:Ha; [|done].
  destruct (bool_decide (get_or r "Value" "" ∈ _)) eqn:Hv; [|done].
  cbn [andb]. apply bool_decide_eq_true in Ha, Hv.
  apply lookup_insert_ne. intros He. by apply Hn.
Qed.

Lemma track_boolean_hit (m : gmap string bool) r e :
  is_bool_input e r →
  track_boolean m r !! e
  = Some (bool_decide (PyStr.lower (get_or r "Value" "") = "true")).
Proof.
  intros (Ha & He & Hv). unfold track_boolean, in_list.
  rewrite !bool_decide_eq_true_2 by done. cbn [andb].
  rewrite He. apply lookup_insert_eq.
Qed.

Lemma boolean_states_after (post : list (gmap string string))
    (m : gmap string bool) e :
  Forall (fun r => ¬ is_bool_input e r) post →
  fold_left track_boolean post m !! e = m !! e.
Proof.
  intros Hpost. revert m. induction Hpost as [|r post Hr _ IH]; intros m.
  - done.
  - cbn [fold_left]. by rewrite IH, track_boolean_other.
Qed.

(** The state recorded for an element is that of its last boolean
    [Input] row. *)
Lemma boolean_states_last (pre post : list (gmap string string)) r e :
  is_bool_input e r →
  Forall (fun r' => ¬ is_bool_input e r') post →
  boolean_states_of (pre ++ r :: post) !! e
  = Some (bool_decide (PyStr.lower (get_or r "Value" "") = "true")).
Proof.
  intros Hr Hpost. unfold boolean_states_of.
  rewrite fold_left_app. cbn [fold_left].
  by rewrite boolean_states_after, track_boolean_hit.
Qed.

Lemma elem_of_present_elements (rows : list (gmap string string)) e :
  e ∈ present_elements rows ↔ ∃ r, r ∈ rows ∧ get_or r "Element" "" = e.
Proof.
  unfold present_elements.
  rewrite elem_of_list_to_set, list_elem_of_In, in_map_iff.
  split; intros (r & H1 & H2); exists r.
  - split; [by apply list_elem_of_In|done].
  - split; [done|by apply list_elem_of_In].
Qed.

(** C5: with the single FIP rule, when the last boolean [Input] row of
    the trigger has a value that lowercases to ["true"], the check emits
    exactly the WARNING for [fipPlanSelection] if no row has that
    [Element], and nothing if some row has it. *)
Theorem fip_rule_last_input_wins
    (pre post : list (gmap string string)) (r : gmap string string) :
  is_bool_input "isApplyingForFipApplication" r →
  PyStr.lower (get_or r "Value" "") = "true" →
  Forall (fun r' => ¬ is_bool_input "isApplyingForFipApplication" r') post →
  ((∀ r', r' ∈ pre ++ r :: post → get_or r' "Element" "" ≠ "fipPlanSelection") →
   _validate_conditionals [FIP_RULE] (pre ++ r :: post) = [FIP_WARNING])
  ∧ ((∃ r', r' ∈ pre ++ r :: post ∧ get_or r' "Element" "" = "fipPlanSelection") →
     _validate_conditionals [FIP_RULE] (pre ++ r :: post) = []).
Proof.
  intros Hr Htrue Hpost.
  assert (Hstate : boolean_states_of (pre ++ r :: post)
                     !! "isApplyingForFipApplication" = Some true).
  { rewrite (boolean_states_last pre post r) by done.
    by rewrite bool_decide_eq_true_2. }
  unfold _validate_conditionals, check_rule.
  cbn [map concat FIP_RULE trigger_field trigger_value required_fields
       excluded_fields].
  rewrite Hstate. cbn [eq_trigger]. rewrite bool_decide_eq_true_2 by done.
  cbn [map concat]. split.
  - intros Hnone. rewrite bool_decide_eq_false_2; [reflexivity|].
    intros (r' & Hin & He)%elem_of_present_elements. by apply (Hnone r').
  - intros Hsome. rewrite bool_decide_eq_true_2; [reflexivity|].
    by apply elem_of_present_elements.
Qed.

(** An earlier ["false"] for the trigger is overridden by a later
    ["True"]; a later non-boolean [Input] of the trigger does not count. *)
Lemma fip_rule_last_input_wins_witness :
  _validate_conditionals [FIP_RULE]
    ([full_row "Other Products" "isApplyingForFipApplication" "Input" "false"
        "id" "//*[@id='fip']"]
     ++ full_row "Other Products" "isApplyingForFipApplication" "Input" "True"
          "id" "//*[@id='fip']"
     :: [full_row "Other Products" "isApplyingForFipApplication" "Input" "no"
           "id" "//*[@id='fip']"])
  = [FIP_WARNING]
  ∧ _validate_conditionals [FIP_RULE]
      ([] ++ full_row "Other Products" "isApplyingForFipApplication" "Input"
               "true" "id" "//*[@id='fip']"
       :: [full_row "Other Products" "fipPlanSelection" "click" ""
             "id" "//*[@id='plan']"])
    = [].
Proof.
  split.
  - apply fip_rule_last_input_wins.
    + split; [reflexivity|]. split; [reflexivity|].
      apply list_elem_of_In. vm_compute. tauto.
    + reflexivity.
    + constructor; [|constructor]. intros (_ & _ & Hv).
      apply list_elem_of_In in Hv. vm_compute in Hv.
      intuition discriminate.
    + intros r' Hin. set_unfold in Hin.
      destruct Hin as [->|[->|[->|[]]]]; vm_compute; discriminate.
  - apply fip_rule_last_input_wins.
    + split; [reflexivity|]. split; [reflexivity|].
      apply list_elem_of_In. vm_compute. tauto.
    + reflexivity.
    + constructor; [|constructor]. intros (Ha & _). vm_compute in Ha.
      discriminate.
    + eexists. split; [apply list_elem_of_further, list_elem_of_here|].
      reflexivity.
Defined.


(** *** Sequence check *)

Lemma find_page_index_range (pages : list string) (j : Z) (group : string) :
  find_page_index j pages group = -1 ∨ j ≤ find_page_index j pages group.
Proof.
  revert j. induction pages as [|page pages IH]; intros j; cbn [find_page_index].
  - by left.
  - destruct (_ || _); [right; lia|].
    destruct (IH (j + 1)) as [->|?]; [by left|right; lia].
Qed.

Lemma page_index_of_range (r : gmap string string) :
  page_index_of r = -1 ∨ 0 ≤ page_index_of r.
Proof. apply find_page_index_range. Qed.

(** The running maximum never decreases in one iteration. *)
Lemma sequence_step_monotone (cur i : Z) (r : gmap string string) :
  cur ≤ (sequence_step cur i r).1.
Proof. unfold sequence_step. destruct (_ =? _); cbn [fst]; lia. Qed.

Lemma sequence_trace_sorted (rows : list (gmap string string)) (cur i : Z) :
  Sorted Z.le (cur :: sequence_trace cur i rows).
Proof.
  revert cur i. induction rows as [|r rows IH]; intros cur i.
  - repeat constructor.
  - cbn [sequence_trace]. constructor; [apply IH|].
    constructor. apply sequence_step_monotone.
Qed.

Lemma sequence_loop_skip (cur i : Z) (r : gmap string string) rows :
  page_index_of r = -1 →
  sequence_loop cur i (r :: rows) = sequence_loop cur (i + 1) rows.
Proof.
  intros Hp. cbn [sequence_loop]. unfold sequence_step.
  fold (page_index_of r). rewrite Hp, Z.eqb_refl.
  by destruct (sequence_loop cur (i + 1) rows).
Qed.

Lemma sequence_loop_resolved (cur i : Z) (r : gmap string string) rows :
  page_index_of r ≠ -1 →
  (sequence_loop cur i (r :: rows)).2
  = (if page_index_of r <? cur then [out_of_order i r] else [])
    ++ (sequence_loop (Z.max cur (page_index_of r)) (i + 1) rows).2.
Proof.
  intros Hp. cbn [sequence_loop]. unfold sequence_step.
  fold (page_index_of r). apply Z.eqb_neq in Hp. rewrite Hp.
  by destruct (sequence_loop _ (i + 1) rows).
Qed.

Lemma resolved_indices_skip (r : gmap string string) rows :
  page_index_of r = -1 →
  resolved_indices (r :: rows) = resolved_indices rows.
Proof. intros Hp. unfold resolved_indices. cbn [map List.filter]. by rewrite Hp. Qed.

Lemma resolved_indices_resolved (r : gmap string string) rows :
  page_index_of r ≠ -1 →
  resolved_indices (r :: rows) = page_index_of r :: resolved_indices rows.
Proof.
  intros Hp. unfold resolved_indices. cbn [map List.filter].
  apply Z.eqb_neq in Hp. by rewrite Hp.
Qed.

Lemma below_cons (x y : Z) (l : list Z) :
  below x (y :: l) = ((if (y <? x)%Z then 1 else 0) + below x l)%nat.
Proof. unfold below. cbn [List.filter]. by destruct (y <? x). Qed.

Lemma below_mono (a b : Z) (l : list Z) : a ≤ b → (below a l ≤ below b l)%nat.
Proof.
  intros Hab. induction l as [|y l IH]; [done|].
  rewrite !below_cons.
  destruct (y <? a) eqn:Ha, (y <? b) eqn:Hb; lia.
Qed.

Lemma below_none (x : Z) (l : list Z) : Forall (Z.le x) l → below x l = 0%nat.
Proof.
  induction 1 as [|y l Hy _ IH]; [done|].
  rewrite below_cons, IH. apply Z.ltb_ge in Hy. by rewrite Hy.
Qed.

Lemma sorted_no_inversions (l : list Z) :
  StronglySorted Z.le l → inversions l = 0%nat.
Proof.
  induction 1 as [|x l _ IH Hx]; [done|].
  cbn [inversions]. by rewrite IH, below_none.
Qed.

(** With no resolved index below the running maximum and no inversion
    among the resolved indices, the loop emits nothing. *)
Lemma sequence_loop_quiet (rows : list (gmap string string)) (cur i : Z) :
  (below cur (resolved_indices rows) + inversions (resolved_indices rows) = 0)%nat →
  (sequence_loop cur i rows).2 = [].
Proof.
  revert cur i. induction rows as [|r rows IH]; intros cur i Hcost; [done|].
  destruct (decide (page_index_of r = -1)) as [Hp|Hp].
  - rewrite sequence_loop_skip by done. apply IH.
    by rewrite resolved_indices_skip in Hcost.
  - rewrite sequence_loop_resolved by done.
    rewrite resolved_indices_resolved in Hcost by done.
    rewrite below_cons in Hcost. cbn [inversions] in Hcost.
    destruct (page_index_of r <? cur) eqn:Hlt; [lia|].
    apply Z.ltb_ge in Hlt. cbn [app]. apply IH.
    rewrite Z.max_r by done. lia.
Qed.

(** With exactly one such regression, the loop emits exactly one ERROR,
    for a resolved row below the running maximum or below an earlier row. *)
Lemma sequence_loop_single (rows : list (gmap string string)) (cur i : Z) :
  (below cur (resolved_indices rows) + inversions (resolved_indices rows) = 1)%nat →
  ∃ (n : nat) (r : gmap string string),
    rows !! n = Some r
    ∧ (sequence_loop cur i rows).2 = [out_of_order (i + Z.of_nat n) r]
    ∧ page_index_of r ≠ -1
    ∧ (page_index_of r < cur
       ∨ ∃ (k : nat) (r' : gmap string string),
           (k < n)%nat ∧ rows !! k = Some r'
           ∧ page_index_of r < page_index_of r').
Proof.
  revert cur i. induction rows as [|r rows IH]; intros cur i Hcost; [done|].
  destruct (decide (page_index_of r = -1)) as [Hp|Hp].
  - rewrite resolved_indices_skip in Hcost by done.
    destruct (IH cur (i + 1) Hcost) as (n & r1 & Hn & Hout & Hres & Hwhy).
    exists (S n), r1. split; [done|]. split.
    { rewrite sequence_loop_skip, Hout by done. do 2 f_equal. lia. }
    split; [done|]. destruct Hwhy as [?|(k & r' & Hk & Hr' & Hlt)]; [by left|].
    right. exists (S k), r'. split; [lia|]. by split.
  - rewrite resolved_indices_resolved in Hcost by done.
    rewrite below_cons in Hcost. cbn [inversions] in Hcost.
    rewrite sequence_loop_resolved by done.
    destruct (page_index_of r <? cur) eqn:Hlt.
    + apply Z.ltb_lt in Hlt. exists 0%nat, r. split; [done|]. split.
      { rewrite sequence_loop_quiet.
        - cbn [app]. do 2 f_equal. lia.
        - rewrite Z.max_l by lia. lia. }
      split; [done|]. by left.
    + apply Z.ltb_ge in Hlt. rewrite Z.max_r by done.
      pose proof (below_mono cur (page_index_of r) (resolved_indices rows) Hlt).
      destruct (IH (page_index_of r) (i + 1)) as (n & r1 & Hn & Hout & Hres & Hwhy);
        [lia|].
      exists (S n), r1. split; [done|]. split.
      { rewrite Hout. cbn [app]. do 2 f_equal. lia. }
      split; [done|]. right.
      destruct Hwhy as [?|(k & r' & Hk & Hr' & Hlt')].
      * exists 0%nat, r. split; [lia|]. by split.
      * exists (S k), r'. split; [lia|]. by split.
Qed.

Lemma last_cons_default {A} (x : A) (l : list A) (d d' : A) :
  List.last (x :: l) d = List.last (x :: l) d'.
Proof. revert x. induction l as [|y l IH]; intros x; [done|]. apply (IH y). Qed.

(** The final value of [current_page_index] is the last one of the trace. *)
Lemma sequence_loop_final (rows : list (gmap string string)) (cur i : Z) :
  (sequence_loop cur i rows).1 = List.last (sequence_trace cur i rows) cur.
Proof.
  revert cur i. induction rows as [|r rows IH]; intros cur i; [done|].
  cbn [sequence_loop sequence_trace].
  destruct (sequence_step cur i r) as [cur' out] eqn:Hs. cbn [fst].
  specialize (IH cur' (i + 1)).
  destruct (sequence_loop cur' (i + 1) rows) as [final outs]. cbn [fst] in *.
  rewrite IH. destruct rows as [|r2 rows]; [done|].
  cbn [sequence_trace]. exact (last_cons_default _ _ cur' cur).
Qed.

Lemma resolved_indices_nonneg (rows : list (gmap string string)) :
  Forall (Z.le (-1)) (resolved_indices rows).
Proof.
  unfold resolved_indices. induction rows as [|r rows IH]; [constructor|].
  cbn [map List.filter]. destruct (_ =? _); [done|].
  constructor; [|done]. destruct (page_index_of_range r); lia.
Qed.

(** C3: when the resolved page indices are non-decreasing the sequence
    check emits nothing; when they have exactly one inversion it emits
    exactly one ERROR, at a resolved row whose page comes before that of
    an earlier row, as for a [Documents] row after an
    [Additional Details] row; and the successive values of the running
    maximum never decrease. *)
Theorem sequence_check_regressions (rows : list (gmap string string)) :
  (Sorted Z.le (resolved_indices rows) → _validate_sequence rows = [])
  ∧ (inversions (resolved_indices rows) = 1%nat →
     ∃ (n : nat) (r : gmap string string),
       rows !! n = Some r
       ∧ _validate_sequence rows = [out_of_order (Z.of_nat n + 1) r]
       ∧ ∃ (k : nat) (r' : gmap string string),
           (k < n)%nat ∧ rows !! k = Some r'
           ∧ 0 ≤ page_index_of r < page_index_of r')
  ∧ _validate_sequence
      [page_row "Contact Info"; page_row "Additional Details";
       page_row "Documents"; page_row "Other Products"]
    = [out_of_order 3 (page_row "Documents")]
  ∧ Sorted Z.le (-1 :: sequence_trace (-1) 1 rows)
  ∧ ∀ cur i r, cur ≤ (sequence_step cur i r).1.
Proof.
  pose proof (resolved_indices_nonneg rows) as Hnn.
  split; [|split; [|split; [|split]]].
  - intros Hs. apply sequence_loop_quiet.
    apply Sorted_StronglySorted in Hs; [|intros ???; lia].
    by rewrite below_none, sorted_no_inversions.
  - intros Hinv.
    destruct (sequence_loop_single rows (-1) 1) as (n & r & Hn & Hout & Hres & Hwhy).
    { by rewrite below_none, Hinv. }
    exists n, r. split; [done|]. split.
    { unfold _validate_sequence. rewrite Hout. do 2 f_equal. lia. }
    destruct (page_index_of_range r) as [?|Hr]; [done|].
    destruct Hwhy as [?|(k & r' & Hk & Hr' & Hlt)]; [lia|].
    exists k, r'. split; [done|]. split; [done|]. lia.
  - vm_compute. reflexivity.
  - apply sequence_trace_sorted.
  - apply sequence_step_monotone.
Qed.

(** The pages in order, and the pages with [Documents] after
    [Additional Details]. *)
Lemma sequence_check_regressions_witness :
  _validate_sequence
    [page_row "Contact Info"; page_row "Personal Information";
     page_row "Personal Information"; page_row "Login"; page_row "Documents";
     page_row "PEP / FATCA"] = []
  ∧ ∃ (n : nat) (r : gmap string string),
      [page_row "Contact Info"; page_row "Additional Details";
       page_row "Documents"; page_row "Other Products"] !! n = Some r
      ∧ _validate_sequence
          [page_row "Contact Info"; page_row "Additional Details";
           page_row "Documents"; page_row "Other Products"]
        = [out_of_order (Z.of_nat n + 1) r]
      ∧ ∃ (k : nat) (r' : gmap string string),
          (k < n)%nat
          ∧ [page_row "Contact Info"; page_row "Additional Details";
             page_row "Documents"; page_row "Other Products"] !! k = Some r'
          ∧ 0 ≤ page_index_of r < page_index_of r'.
Proof.
  split.
  - apply sequence_check_regressions. vm_compute.
    repeat constructor; discriminate.
  - apply sequence_check_regressions. vm_compute. reflexivity.
Defined.

End ValidatorProofs.

(** ** Further properties of the structural validator *)
Module ValidatorMore.
Import Validator Terms MoreTerms ValidatorProofs.

(** *** Page resolution *)

(** The index found is that of the first matching page. *)
Lemma find_page_index_first (pages : list string) (j : Z) (group : string)
    (n : nat) (page : string) :
  pages !! n = Some page →
  page_match group page = true →
  (∀ k page', (k < n)%nat → pages !! k = Some page'
     → page_match group page' = false) →
  find_page_index j pages group = j + Z.of_nat n.
Proof.
  revert j n. induction pages as [|p pages IH]; intros j n Hn Hm Hfirst; [done|].
  cbn [find_page_index]. fold (page_match group p). destruct n as [|n].
  - injection Hn as ->. rewrite Hm. lia.
  - rewrite (Hfirst 0%nat p) by (done || lia).
    rewrite (IH (j + 1) n); [lia|done|done|].
    intros k page' Hk Hp. apply (Hfirst (S k)); [lia|done].
Qed.

Lemma find_page_index_unmatched (pages : list string) (j : Z) (group : string) :
  Forall (fun page => page_match group page = false) pages →
  find_page_index j pages group = -1.
Proof.
  intros H. revert j. induction H as [|p pages Hp _ IH]; intros j; [done|].
  cbn [find_page_index]. fold (page_match group p). by rewrite Hp.
Qed.

(** Either no page matches, or the first matching page is found. *)
Lemma find_page_index_cases (pages : list string) (group : string) :
  Forall (fun page => page_match group page = false) pages
  ∨ ∃ n page, pages !! n = Some page ∧ page_match group page = true
      ∧ ∀ k page', (k < n)%nat → pages !! k = Some page'
          → page_match group page' = false.
Proof.
  induction pages as [|p pages IH]; [by left|].
  destruct (page_match group p) eqn:Hp.
  - right. exists 0%nat, p. split; [done|]. split; [done|]. intros; lia.
  - destruct IH as [IH|(n & page & Hn & Hm & Hfirst)].
    + left. by constructor.
    + right. exists (S n), page. split; [done|]. split; [done|].
      intros [|k] page' Hk Hp'.
      * by injection Hp' as <-.
      * apply (Hfirst k); [lia|done].
Qed.

(** X1: the page a row resolves to.  The index is [-1] exactly when the
    [Group] matches no canonical page in either direction; otherwise it
    is the position in [PAGE_ORDER] of the first page that matches, a
    number from 0 to 6. *)
Theorem page_index_of_first_match (r : gmap string string) :
  (page_index_of r = -1
   ↔ Forall (fun page => page_match (get_or r "Group" "") page = false)
       PAGE_ORDER)
  ∧ (∀ n : nat,
       page_index_of r = Z.of_nat n
       ↔ ∃ page, PAGE_ORDER !! n = Some page
           ∧ page_match (get_or r "Group" "") page = true
           ∧ ∀ k page', (k < n)%nat → PAGE_ORDER !! k = Some page'
               → page_match (get_or r "Group" "") page' = false)
  ∧ -1 ≤ page_index_of r ≤ 6.
Proof.
  unfold page_index_of. set (g := get_or r "Group" "").
  destruct (find_page_index_cases PAGE_ORDER g)
    as [Hnone|(n & page & Hn & Hm & Hfirst)].
  - rewrite (find_page_index_unmatched _ _ _ Hnone). split; [done|].
    split; [|lia]. intros m. split; [lia|].
    intros (page & Hp & Hm & _). exfalso.
    apply list_elem_of_lookup_2 in Hp.
    rewrite Forall_forall in Hnone. rewrite (Hnone page Hp) in Hm. done.
  - rewrite (find_page_index_first _ 0 _ n page Hn Hm Hfirst).
    assert (n < 7)%nat as Hlt.
    { apply lookup_lt_Some in Hn. exact Hn. }
    split; [|split; [|lia]].
    + split; [lia|]. intros Hnone. exfalso.
      apply list_elem_of_lookup_2 in Hn.
      rewrite Forall_forall in Hnone. rewrite (Hnone page Hn) in Hm. done.
    + intros m. split.
      * intros Heq. assert (m = n) as -> by lia. by exists page.
      * intros (page2 & Hp2 & Hm2 & Hfirst2). f_equal.
        destruct (Nat.lt_trichotomy m n) as [Hlt2|[->|Hgt]]; [|done|].
        -- rewrite (Hfirst m page2 Hlt2 Hp2) in Hm2. done.
        -- rewrite (Hfirst2 n page Hgt Hn) in Hm. done.
Qed.


(** *** Sequence check: which rows are flagged *)

Lemma sequence_loop_quiet_inv (rows : list (gmap string string)) (cur i : Z) :
  (sequence_loop cur i rows).2 = [] →
  Forall (Z.le cur) (resolved_indices rows)
  ∧ StronglySorted Z.le (resolved_indices rows).
Proof.
  revert cur i. induction rows as [|r rows IH]; intros cur i Hq.
  - split; constructor.
  - destruct (decide (page_index_of r = -1)) as [Hp|Hp].
    + rewrite resolved_indices_skip by done.
      rewrite sequence_loop_skip in Hq by done. by apply (IH cur (i + 1)).
    + rewrite resolved_indices_resolved by done.
      rewrite sequence_loop_resolved in Hq by done.
      destruct (page_index_of r <? cur) eqn:Hlt; [done|].
      apply Z.ltb_ge in Hlt. cbn [app] in Hq.
      rewrite Z.max_r in Hq by done.
      destruct (IH _ _ Hq) as [Hall Hs]. split.
      * constructor; [done|]. eapply Forall_impl; [exact Hall|].
        intros; cbn beta in *; lia.
      * by constructor.
Qed.

Lemma sequence_quiet_iff_sorted_aux (rows : list (gmap string string)) :
  _validate_sequence rows = [] ↔ Sorted Z.le (resolved_indices rows).
Proof.
  split.
  - intros Hq. apply StronglySorted_Sorted.
    by apply (sequence_loop_quiet_inv rows (-1) 1).
  - intros Hs. apply sequence_loop_quiet.
    apply Sorted_StronglySorted in Hs; [|intros ???; lia].
    rewrite below_none by apply resolved_indices_nonneg.
    by rewrite sorted_no_inversions.
Qed.

(** Membership in the output of the loop, from any state. *)
Lemma elem_of_sequence_loop (rows : list (gmap string string)) (cur i : Z)
    (x : ValidationResult) :
  x ∈ (sequence_loop cur i rows).2
  ↔ ∃ (n : nat) (r : gmap string string),
      rows !! n = Some r ∧ x = out_of_order (i + Z.of_nat n) r
      ∧ page_index_of r ≠ -1
      ∧ (page_index_of r < cur
         ∨ ∃ (k : nat) (r' : gmap string string),
             (k < n)%nat ∧ rows !! k = Some r'
             ∧ page_index_of r < page_index_of r').
Proof.
  revert cur i. induction rows as [|r0 rows IH]; intros cur i.
  { cbn [sequence_loop snd]. split; [by intros ?%elem_of_nil|].
    by intros (n & r & Hn & _). }
  destruct (decide (page_index_of r0 = -1)) as [Hp|Hp].
  - rewrite sequence_loop_skip by done. rewrite IH. split.
    + intros (n & r & Hn & -> & Hres & Hwhy). exists (S n), r.
      split; [done|]. split; [f_equal; lia|]. split; [done|].
      destruct Hwhy as [?|(k & r' & Hk & Hr' & Hlt)]; [by left|].
      right. exists (S k), r'. split; [lia|]. by split.
    + intros (n & r & Hn & -> & Hres & Hwhy). destruct n as [|n].
      * injection Hn as ->. done.
      * exists n, r. split; [done|]. split; [f_equal; lia|]. split; [done|].
        destruct Hwhy as [?|(k & r' & Hk & Hr' & Hlt)]; [by left|].
        destruct k as [|k].
        -- injection Hr' as <-. destruct (page_index_of_range r); [done|lia].
        -- right. exists k, r'. split; [lia|]. by split.
  - rewrite sequence_loop_resolved by done. rewrite elem_of_app, IH. split.
    + intros [Hhead|(n & r & Hn & -> & Hres & Hwhy)].
      * destruct (page_index_of r0 <? cur) eqn:Hlt;
          [|by apply elem_of_nil in Hhead].
        apply list_elem_of_singleton in Hhead as ->. apply Z.ltb_lt in Hlt.
        exists 0%nat, r0. split; [done|]. split; [f_equal; lia|].
        split; [done|]. by left.
      * exists (S n), r. split; [done|]. split; [f_equal; lia|].
        split; [done|].
        destruct Hwhy as [Hlt|(k & r' & Hk & Hr' & Hlt)].
        -- destruct (Z.max_spec cur (page_index_of r0)) as [[_ Hm]|[_ Hm]];
             rewrite Hm in Hlt; [|by left].
           right. exists 0%nat, r0. split; [lia|]. by split.
        -- right. exists (S k), r'. split; [lia|]. by split.
    + intros (n & r & Hn & -> & Hres & Hwhy). destruct n as [|n].
      * injection Hn as ->. left.
        destruct Hwhy as [Hlt|(k & _ & Hk & _)]; [|lia].
        apply Z.ltb_lt in Hlt. rewrite Hlt.
        replace (i + Z.of_nat 0) with i by lia. apply list_elem_of_here.
      * right. exists n, r. split; [done|]. split; [f_equal; lia|].
        split; [done|].
        destruct Hwhy as [?|(k & r' & Hk & Hr' & Hlt)]; [left; lia|].
        destruct k as [|k].
        -- injection Hr' as <-. left. lia.
        -- right. exists k, r'. split; [lia|]. by split.
Qed.

(** X2: the sequence check emits nothing exactly when the resolved page
    indices, read in row order, are non-decreasing; and it emits something
    exactly when some row regresses. *)
Theorem sequence_quiet_iff_sorted (rows : list (gmap string string)) :
  (_validate_sequence rows = [] ↔ Sorted Z.le (resolved_indices rows))
  ∧ (_validate_sequence rows ≠ [] ↔ ∃ n r, regresses rows n r).
Proof.
  split; [apply sequence_quiet_iff_sorted_aux|]. split.
  - destruct (_validate_sequence rows) as [|x l] eqn:Hs; [done|]. intros _.
    assert (Hx : x ∈ _validate_sequence rows)
      by (rewrite Hs; apply list_elem_of_here).
    unfold _validate_sequence in Hx.
    apply elem_of_sequence_loop in Hx as (n & r & Hn & _ & Hres & Hwhy).
    exists n, r. split; [done|]. split; [done|].
    destruct Hwhy as [Hlt|?]; [|done].
    destruct (page_index_of_range r); [done|lia].
  - intros (n & r & Hn & Hres & Hwhy) Hnil.
    assert (Hx : out_of_order (1 + Z.of_nat n) r ∈ _validate_sequence rows).
    { unfold _validate_sequence. apply elem_of_sequence_loop.
      exists n, r. split; [done|]. split; [done|]. split; [done|]. by right. }
    rewrite Hnil in Hx. by apply elem_of_nil in Hx.
Qed.

(** X3: the ERRORs of the sequence check are exactly those of the rows
    that resolve to a page placed before the page of some row above them;
    the ERROR of the row at position [n] carries the row number [n + 1]. *)
Theorem sequence_error_iff_regresses (rows : list (gmap string string))
    (x : ValidationResult) :
  x ∈ _validate_sequence rows
  ↔ ∃ (n : nat) (r : gmap string string),
      regresses rows n r ∧ x = out_of_order (Z.of_nat n + 1) r.
Proof.
  unfold _validate_sequence. rewrite elem_of_sequence_loop. split.
  - intros (n & r & Hn & -> & Hres & Hwhy). exists n, r. split.
    + split; [done|]. split; [done|].
      destruct Hwhy as [Hlt|?]; [|done].
      destruct (page_index_of_range r); [done|lia].
    + f_equal. lia.
  - intros (n & r & (Hn & Hres & Hwhy) & ->). exists n, r.
    split; [done|]. split; [f_equal; lia|]. split; [done|]. by right.
Qed.

(** The row numbers of the output of the loop increase strictly. *)
Lemma sequence_loop_rows_increasing (rows : list (gmap string string))
    (cur i : Z) :
  Forall (fun x => i ≤ row x) (sequence_loop cur i rows).2
  ∧ StronglySorted Z.lt (map row (sequence_loop cur i rows).2).
Proof.
  revert cur i. induction rows as [|r rows IH]; intros cur i.
  { split; constructor. }
  destruct (decide (page_index_of r = -1)) as [Hp|Hp].
  - rewrite sequence_loop_skip by done.
    destruct (IH cur (i + 1)) as [Hall Hs]. split; [|done].
    eapply Forall_impl; [exact Hall|]. intros; cbn beta in *; lia.
  - rewrite sequence_loop_resolved by done.
    destruct (IH (Z.max cur (page_index_of r)) (i + 1)) as [Hall Hs].
    assert (Hall' : Forall (fun x => i ≤ row x)
                      (sequence_loop (Z.max cur (page_index_of r)) (i + 1) rows).2).
    { eapply Forall_impl; [exact Hall|]. intros; cbn beta in *; lia. }
    destruct (page_index_of r <? cur); cbn [app]; [|done]. split.
    + constructor; [done|done].
    + cbn [map]. constructor; [done|]. apply Forall_forall.
      intros z Hz. apply list_elem_of_In, in_map_iff in Hz as (x & <- & Hx).
      apply list_elem_of_In in Hx.
      rewrite Forall_forall in Hall. specialize (Hall x Hx).
      cbn [out_of_order row]. lia.
Qed.

(** X4: every result of the sequence check is an ERROR on [Group] whose
    row number lies between 1 and the number of rows; the row numbers
    increase strictly, so no row is reported twice and there are at most
    as many results as rows. *)
Theorem sequence_results_shape (rows : list (gmap string string)) :
  Forall (fun x => severity x = ERROR ∧ field x = "Group"
                   ∧ 1 ≤ row x ≤ Z.of_nat (length rows))
    (_validate_sequence rows)
  ∧ StronglySorted Z.lt (map row (_validate_sequence rows))
  ∧ (length (_validate_sequence rows) ≤ length rows)%nat.
Proof.
  assert (Hshape : Forall (fun x => severity x = ERROR ∧ field x = "Group"
                   ∧ 1 ≤ row x ≤ Z.of_nat (length rows))
                     (_validate_sequence rows)).
  { apply Forall_forall. intros x Hx. unfold _validate_sequence in Hx.
    apply elem_of_sequence_loop in Hx as (n & r & Hn & -> & _).
    apply lookup_lt_Some in Hn. cbn [out_of_order severity field row].
    split; [done|]. split; [done|]. lia. }
  destruct (sequence_loop_rows_increasing rows (-1) 1) as [_ Hs].
  split; [done|]. split; [done|].
  (* strictly increasing integers within 1..n: at most n of them *)
  fold (_validate_sequence rows) in Hs.
  assert (Hbound : ∀ (l : list Z) (lo : Z) (n : nat),
            StronglySorted Z.lt l → Forall (fun z => lo ≤ z < lo + Z.of_nat n) l →
            (length l ≤ n)%nat).
  { induction l as [|z l IHl]; intros lo n Hsl Hr; [simpl; lia|].
    inversion_clear Hsl as [|? ? Hsl' Hz]. inversion_clear Hr as [|? ? Hz0 Hr'].
    destruct n as [|n]; [lia|]. cbn [length].
    apply le_n_S, (IHl (lo + 1)); [done|].
    apply Forall_forall. intros y Hy.
    rewrite Forall_forall in Hz, Hr'. specialize (Hz y Hy).
    specialize (Hr' y Hy). lia. }
  rewrite <- (length_map row).
  apply (Hbound _ 1); [done|].
  apply Forall_forall. intros z Hz.
  apply list_elem_of_In, in_map_iff in Hz as (x & <- & Hx).
  apply list_elem_of_In in Hx.
  rewrite Forall_forall in Hshape. destruct (Hshape x Hx) as (_ & _ & ?). lia.
Qed.


Lemma page_index_of_no_group (r : gmap string string) :
  no_group r → page_index_of r = 0.
Proof.
  intros Hg. unfold page_index_of.
  assert (get_or r "Group" "" = "") as ->; [|reflexivity].
  destruct Hg as [Hg|Hg]; [by apply get_or_Some|by apply get_or_None].
Qed.

(** X5: a row whose [Group] is empty or absent resolves to the first page,
    so it is reported as out of order as soon as a row above it resolves
    to a later page. *)
Theorem sequence_flags_missing_group (rows : list (gmap string string))
    (n k : nat) (r r' : gmap string string) :
  rows !! n = Some r → no_group r →
  (k < n)%nat → rows !! k = Some r' → 0 < page_index_of r' →
  page_index_of r = 0
  ∧ out_of_order (Z.of_nat n + 1) r ∈ _validate_sequence rows.
Proof.
  intros Hn Hg Hk Hr' Hpos. pose proof (page_index_of_no_group r Hg) as H0.
  split; [done|]. unfold _validate_sequence. apply elem_of_sequence_loop.
  exists n, r. split; [done|]. split; [f_equal; lia|]. split; [lia|].
  right. exists k, r'. split; [done|]. split; [done|]. lia.
Qed.

(** A [Documents] row followed by a row without [Group] column. *)
Lemma sequence_flags_missing_group_witness :
  page_index_of (click_row "nextButton" "//*[@id='next']") = 0
  ∧ out_of_order (Z.of_nat 1 + 1) (click_row "nextButton" "//*[@id='next']")
    ∈ _validate_sequence
        [page_row "Documents"; click_row "nextButton" "//*[@id='next']"].
Proof.
  apply (sequence_flags_missing_group _ 1 0 _ (page_row "Documents")).
  - reflexivity.
  - right. reflexivity.
  - lia.
  - reflexivity.
  - vm_compute. reflexivity.
Defined.

(** *** The verdict of [validate_csv] *)

Lemma no_error_concat (ls : list (list ValidationResult)) :
  existsb is_error (concat ls) = false
  ↔ Forall (fun l => existsb is_error l = false) ls.
Proof.
  induction ls as [|l ls IH]; [split; [constructor|done]|].
  cbn [concat]. rewrite existsb_app, orb_false_iff, IH. split.
  - intros [? ?]. by constructor.
  - intros H. by inversion_clear H.
Qed.

Lemma structure_no_error (rows : list (gmap string string)) :
  existsb is_error (_validate_structure rows) = false ↔ header_complete rows.
Proof.
  destruct rows as [|r rs]; [done|].
  cbn [_validate_structure header_complete].
  rewrite no_error_concat, Forall_forall. split.
  - intros H col Hcol.
    specialize (H (missing_column r col)).
    rewrite missing_column_spec in H.
    destruct (decide (col ∈ dom r)); [done|].
    exfalso. enough (true = false) by done. apply H.
    apply list_elem_of_In, in_map_iff. exists col.
    split; [by rewrite missing_column_spec, decide_False|].
    by apply list_elem_of_In.
  - intros H l Hl. apply list_elem_of_In, in_map_iff in Hl as (col & <- & Hcol).
    apply list_elem_of_In in Hcol.
    by rewrite missing_column_spec, decide_True by auto.
Qed.

Lemma truthy_false (s : string) : PyStr.truthy s = false ↔ s = "".
Proof. by destruct s. Qed.

Lemma content_row_no_error (i : Z) (r : gmap string string) :
  existsb is_error (content_row i r) = false ↔ row_fine r.
Proof.
  unfold content_row, _validate_xpath, row_fine, in_list, VALID_ACTIONS.
  rewrite !existsb_app, !orb_false_iff.
  set (a := get_or r "Action" ""). set (x := get_or r "XPath" "").
  unfold PyStr.startswith.
  split.
  - intros (Ha & _ & Hx & _). split.
    + destruct (PyStr.truthy a) eqn:Ht.
      * case_bool_decide as Hin; [|done]. by apply list_elem_of_further.
      * apply truthy_false in Ht as ->. apply list_elem_of_here.
    + destruct (PyStr.truthy x) eqn:Ht; [|left; by apply truthy_false].
      right. by destruct (String.prefix "/" x).
  - intros [Ha Hx]. split; [|split; [|split; [|split]]].
    + apply elem_of_cons in Ha as [->|Ha]; [done|].
      rewrite (bool_decide_eq_true_2 _ Ha). by rewrite andb_false_r.
    + by destruct (_ && _).
    + destruct Hx as [Hx|Hx]; rewrite Hx; [done|]. by destruct (PyStr.truthy x).
    + by destruct (_ && _).
    + by destruct (_ && _).
Qed.

Lemma content_loop_no_error (rows : list (gmap string string)) (i : Z) :
  existsb is_error
    (concat (map (fun ir => content_row ir.1 ir.2) (enumerate i rows))) = false
  ↔ Forall row_fine rows.
Proof.
  revert i. induction rows as [|r rows IH]; intros i.
  - split; [constructor|done].
  - cbn [enumerate map concat fst snd].
    rewrite existsb_app, orb_false_iff, content_row_no_error, IH. split.
    + intros [? ?]. by constructor.
    + intros H. by inversion_clear H.
Qed.

Lemma sequence_no_error (rows : list (gmap string string)) :
  existsb is_error (_validate_sequence rows) = false
  ↔ _validate_sequence rows = [].
Proof.
  split; [|by intros ->].
  destruct (_validate_sequence rows) as [|x l] eqn:Hs; [done|].
  assert (Hx : x ∈ _validate_sequence rows) by (rewrite Hs; apply list_elem_of_here).
  unfold _validate_sequence in Hx.
  apply elem_of_sequence_loop in Hx as (n & r & _ & -> & _). done.
Qed.

(** X6: [validate_csv] answers [passed = true] exactly when the CSV has a
    row, its first row has the six required columns, every row has an
    [Action] that is empty, [click] or [Input] and an [XPath] that is
    empty or starts with a slash, and the resolved page indices are
    non-decreasing.  Strategy, Value, Group and the dependency rules play
    no part. *)
Theorem validate_csv_passed_iff (rules : list ConditionalRule)
    (rows : list (gmap string string)) :
  (validate_csv rules rows).1 = true
  ↔ header_complete rows ∧ Forall row_fine rows
    ∧ Sorted Z.le (resolved_indices rows).
Proof.
  unfold validate_csv. cbn [fst]. rewrite negb_true_iff.
  rewrite !existsb_is_error_app, !orb_false_iff.
  rewrite (warnings_no_error _ (conditionals_warnings rules rows)).
  rewrite structure_no_error. unfold _validate_content.
  rewrite content_loop_no_error, sequence_no_error.
  rewrite (sequence_quiet_iff_sorted_aux rows). tauto.
Qed.


(** *** Content check: the results of one row *)

(** X7: the content check reports on the [Value] of a row exactly when the
    row is an [Input] whose [Value] is empty or absent, and then with a
    single WARNING; the [Action] of such a row is never reported. *)
Theorem content_input_without_value (i : Z) (r : gmap string string) :
  List.filter (fun x => bool_decide (field x = "Value")) (content_row i r)
  = (if decide (input_without_value r) then [empty_value_warning i] else [])
  ∧ (input_without_value r →
     List.filter (fun x => bool_decide (field x = "Action")) (content_row i r) = []).
Proof.
  unfold content_row, _validate_xpath, input_without_value, in_list, VALID_ACTIONS.
  unfold get. set (a := get_or r "Action" ""). split.
  - rewrite !List.filter_app.
    destruct (decide _) as [[Ha Hv]|Hn].
    + rewrite (bool_decide_eq_true_2 _ Ha).
      assert (from_option PyStr.truthy false (r !! "Value") = false) as ->.
      { by destruct Hv as [->| ->]. }
      cbn [andb negb].
      repeat match goal with
             | |- context [if ?b then _ else _] => destruct b
             end; reflexivity.
    + assert (bool_decide (a = "Input")
              && negb (from_option PyStr.truthy false (r !! "Value")) = false) as ->.
      { case_bool_decide as Ha; [|done]. cbn [andb].
        destruct (r !! "Value") as [v|] eqn:Hv; cbn [from_option].
        - destruct v; [|done]. exfalso. apply Hn. split; [done|by right].
        - exfalso. apply Hn. split; [done|by left]. }
      repeat match goal with
             | |- context [if ?b then _ else _] => destruct b
             end; reflexivity.
  - intros [Ha _]. rewrite Ha.
    rewrite (bool_decide_eq_true_2 ("Input" ∈ ["click"; "Input"]))
      by (apply list_elem_of_further, list_elem_of_here).
    rewrite !List.filter_app. cbn [andb negb PyStr.truthy].
    repeat match goal with
           | |- context [if ?b then _ else _] => destruct b
           end; reflexivity.
Qed.

(** An [Input] row whose CSV has no [Value] column, with row number 7. *)
Lemma content_input_without_value_witness :
  List.filter (fun x => bool_decide (field x = "Action"))
    (content_row 7
       (<["Group" := "Contact Info"]> (<["Element" := "mobileNo"]>
          (<["Action" := "Input"]> ∅)))) = [].
Proof.
  apply (content_input_without_value 7).
  split; [reflexivity|]. left. reflexivity.
Defined.

Lemma content_row_length (i : Z) (r : gmap string string) :
  (length (content_row i r) ≤ 4)%nat ∧ Forall (fun x => row x = i) (content_row i r).
Proof.
  unfold content_row, _validate_xpath, in_list, VALID_ACTIONS.
  set (a := get_or r "Action" "").
  destruct (bool_decide (a = "Input")) eqn:Ha.
  - apply bool_decide_eq_true in Ha. rewrite Ha.
    rewrite (bool_decide_eq_true_2 ("Input" ∈ ["click"; "Input"]))
      by (apply list_elem_of_further, list_elem_of_here).
    cbn [andb negb PyStr.truthy].
    repeat match goal with
           | |- context [if ?b then _ else _] => destruct b
           end; cbn [app length]; (split; [lia|repeat constructor]).
  - cbn [andb].
    repeat match goal with
           | |- context [if ?b then _ else _] => destruct b
           end; cbn [app length]; (split; [lia|repeat constructor]).
Qed.

Lemma content_loop_bounds (rows : list (gmap string string)) (i : Z) :
  (length (concat (map (fun ir => content_row ir.1 ir.2) (enumerate i rows)))
   ≤ 4 * length rows)%nat
  ∧ Forall (fun x => i ≤ row x < i + Z.of_nat (length rows))
      (concat (map (fun ir => content_row ir.1 ir.2) (enumerate i rows))).
Proof.
  revert i. induction rows as [|r rows IH]; intros i.
  - split; [done|constructor].
  - cbn [enumerate map concat fst snd length].
    destruct (content_row_length i r) as [Hlen Hrow].
    destruct (IH (i + 1)) as [Hlen' Hrow']. split.
    + rewrite length_app. lia.
    + apply Forall_app. split.
      * eapply Forall_impl; [exact Hrow|]. intros x ->. lia.
      * eapply Forall_impl; [exact Hrow'|]. intros; cbn beta in *; lia.
Qed.

(** X8: the content check emits at most four results per row (the ERROR
    on [Action] and the WARNING on [Value] exclude each other), each
    carrying a row number between 1 and the number of rows. *)
Theorem content_results_bounds (rows : list (gmap string string)) :
  (length (_validate_content rows) ≤ 4 * length rows)%nat
  ∧ Forall (fun x => 1 ≤ row x ≤ Z.of_nat (length rows)) (_validate_content rows).
Proof.
  destruct (content_loop_bounds rows 1) as [Hlen Hrow]. split; [done|].
  eapply Forall_impl; [exact Hrow|]. intros; cbn beta in *; lia.
Qed.

(** *** Conditional rules: when a rule speaks *)

Lemma boolean_states_none (rows : list (gmap string string)) (e : string) :
  Forall (fun r => ¬ is_bool_input e r) rows →
  boolean_states_of rows !! e = None.
Proof.
  intros H. unfold boolean_states_of. by rewrite boolean_states_after.
Qed.

Lemma conditionals_silent_without_state_aux (rules : list ConditionalRule)
    (rows : list (gmap string string)) :
  (∀ rule r, rule ∈ rules → r ∈ rows → ¬ is_bool_input (trigger_field rule) r) →
  _validate_conditionals rules rows = [].
Proof.
  intros H. unfold _validate_conditionals.
  induction rules as [|rule rules IH]; [done|].
  cbn [map concat]. rewrite IH.
  - unfold check_rule. rewrite boolean_states_none; [done|].
    apply Forall_forall. intros r Hr. apply (H rule r); [apply list_elem_of_here|done].
  - intros rule' r Hrule. apply H. by apply list_elem_of_further.
Qed.

(** X9: a rule whose trigger has no recorded boolean says nothing: only
    [Input] rows whose [Value] is exactly [true], [false], [True] or
    [False] record one, so clicks and values such as [TRUE] or [yes] leave
    every rule on that trigger silent. *)
Theorem conditionals_silent_without_state (rules : list ConditionalRule)
    (rows : list (gmap string string)) :
  (∀ rule r, rule ∈ rules → r ∈ rows → ¬ is_bool_input (trigger_field rule) r) →
  _validate_conditionals rules rows = [].
Proof. apply conditionals_silent_without_state_aux. Qed.

(** The FIP rule on a CSV that answers the trigger with [TRUE] and with a
    click. *)
Lemma conditionals_silent_without_state_witness :
  _validate_conditionals [FIP_RULE]
    [full_row "Other Products" "isApplyingForFipApplication" "Input" "TRUE"
       "id" "//*[@id='fip']";
     full_row "Other Products" "isApplyingForFipApplication" "click" ""
       "absolute" "/html/body/div/label[1]"] = [].
Proof.
  apply conditionals_silent_without_state.
  intros rule r Hrule Hr (Ha & _ & Hv).
  apply list_elem_of_singleton in Hrule as ->.
  apply elem_of_cons in Hr as [->|Hr].
  - apply list_elem_of_In in Hv. vm_compute in Hv. intuition discriminate.
  - apply list_elem_of_singleton in Hr as ->. vm_compute in Ha. discriminate.
Defined.

Lemma map_field_concat_required (rows : list (gmap string string))
    (msg : string → string) (fs : list string) :
  map field (concat (map (fun req_field =>
    if bool_decide (req_field ∈ present_elements rows) then []
    else [mkResult WARNING 0 req_field (msg req_field)]) fs))
  = List.filter (fun f => negb (element_present rows f)) fs.
Proof.
  induction fs as [|f fs IH]; [done|].
  cbn [map concat List.filter]. rewrite map_app, IH.
  unfold element_present.
  destruct (bool_decide (f ∈ present_elements rows)); reflexivity.
Qed.

Lemma map_field_concat_excluded (rows : list (gmap string string))
    (msg : string → string) (fs : list string) :
  map field (concat (map (fun excl_field =>
    if bool_decide (excl_field ∈ present_elements rows)
    then [mkResult WARNING 0 excl_field (msg excl_field)]
    else []) fs))
  = List.filter (element_present rows) fs.
Proof.
  induction fs as [|f fs IH]; [done|].
  cbn [map concat List.filter]. rewrite map_app, IH.
  unfold element_present.
  destruct (bool_decide (f ∈ present_elements rows)); reflexivity.
Qed.

(** X10: when the last boolean [Input] of a rule's trigger records the
    rule's [trigger_value], the rule reports its required fields that no
    row has as [Element], in the order of [required_fields]; when it
    records the other boolean, or the rule has no [trigger_value], the
    rule reports its excluded fields that some row has, in the order of
    [excluded_fields].  A rule never does both. *)
Theorem conditional_rule_reports (rule : ConditionalRule)
    (pre post : list (gmap string string)) (r : gmap string string) :
  is_bool_input (trigger_field rule) r →
  Forall (fun r' => ¬ is_bool_input (trigger_field rule) r') post →
  map field (_validate_conditionals [rule] (pre ++ r :: post))
  = if bool_decide (trigger_value rule = Some (recorded_bool r))
    then List.filter (fun f => negb (element_present (pre ++ r :: post) f))
           (required_fields rule)
    else List.filter (element_present (pre ++ r :: post)) (excluded_fields rule).
Proof.
  intros Hr Hpost. unfold _validate_conditionals, check_rule.
  cbn [map concat]. rewrite app_nil_r.
  rewrite (boolean_states_last pre post r) by done.
  fold (recorded_bool r). unfold eq_trigger.
  destruct (trigger_value rule) as [tv|] eqn:Htv.
  - destruct (recorded_bool r), tv;
      rewrite ?bool_decide_eq_true_2, ?bool_decide_eq_false_2 by congruence.
    + apply (map_field_concat_required _ (fun f => _ +:+ f +:+ _)).
    + apply (map_field_concat_excluded _ (fun f => _ +:+ f +:+ _)).
    + apply (map_field_concat_excluded _ (fun f => _ +:+ f +:+ _)).
    + apply (map_field_concat_required _ (fun f => _ +:+ f +:+ _)).
  - rewrite bool_decide_eq_false_2 by done.
    apply (map_field_concat_excluded _ (fun f => _ +:+ f +:+ _)).
Qed.

(** A rule whose trigger is answered [true] then [false]: the excluded
    field that is present is reported, the required one is not asked for. *)
Lemma conditional_rule_reports_witness :
  map field
    (_validate_conditionals
       [mkRule "hasBeneficiary" (Some true) ["beneficiaryMobileNo"]
          ["noBeneficiaryReason"; "beneficiaryRelation"]]
       ([full_row "Other Products" "hasBeneficiary" "Input" "true" "id" "//*[@id='b']"]
        ++ full_row "Other Products" "hasBeneficiary" "Input" "false" "id" "//*[@id='b']"
        :: [full_row "Other Products" "beneficiaryRelation" "click" "" "id" "//*[@id='r']"]))
  = ["beneficiaryRelation"].
Proof.
  apply (conditional_rule_reports
           (mkRule "hasBeneficiary" (Some true) ["beneficiaryMobileNo"]
              ["noBeneficiaryReason"; "beneficiaryRelation"])).
  - split; [reflexivity|]. split; [reflexivity|].
    apply list_elem_of_In. vm_compute. tauto.
  - constructor; [|constructor]. intros (Ha & _). vm_compute in Ha. discriminate.
Defined.

(** X11: every result of the conditional-rule check is a file-level
    WARNING (row 0) about a required or an excluded field of one of the
    rules. *)
Theorem conditionals_results_shape (rules : list ConditionalRule)
    (rows : list (gmap string string)) :
  Forall (fun x => severity x = WARNING ∧ row x = 0
                   ∧ ∃ rule, rule ∈ rules
                       ∧ (field x ∈ required_fields rule
                          ∨ field x ∈ excluded_fields rule))
    (_validate_conditionals rules rows).
Proof.
  unfold _validate_conditionals. induction rules as [|rule rules IH].
  - constructor.
  - cbn [map concat]. apply Forall_app. split.
    + unfold check_rule. destruct (_ !! _) as [b|]; [|constructor].
      destruct (eq_trigger _ _).
      * assert (H : ∀ fs, (∀ f, f ∈ fs → f ∈ required_fields rule) →
          Forall (fun x => severity x = WARNING ∧ row x = 0
                   ∧ ∃ rule0, rule0 ∈ rule :: rules
                       ∧ (field x ∈ required_fields rule0
                          ∨ field x ∈ excluded_fields rule0))
            (concat (map (fun req_field =>
               if bool_decide (req_field ∈ present_elements rows) then []
               else [mkResult WARNING 0 req_field
                       ("Field '" +:+ req_field +:+ "' may be required when '"
                        +:+ trigger_field rule +:+ "' is "
                        +:+ str_trigger (trigger_value rule))]) fs))).
        { induction fs as [|f fs IHfs]; intros Hsub; [constructor|].
          cbn [map concat]. apply Forall_app. split.
          - case_bool_decide; constructor; [|constructor].
            split; [done|]. split; [done|]. exists rule.
            split; [apply list_elem_of_here|]. left. apply Hsub, list_elem_of_here.
          - apply IHfs. intros f' Hf'. by apply Hsub, list_elem_of_further. }
        by apply H.
      * assert (H : ∀ fs, (∀ f, f ∈ fs → f ∈ excluded_fields rule) →
          Forall (fun x => severity x = WARNING ∧ row x = 0
                   ∧ ∃ rule0, rule0 ∈ rule :: rules
                       ∧ (field x ∈ required_fields rule0
                          ∨ field x ∈ excluded_fields rule0))
            (concat (map (fun excl_field =>
               if bool_decide (excl_field ∈ present_elements rows)
               then [mkResult WARNING 0 excl_field
                       ("Field '" +:+ excl_field +:+ "' may not be needed when '"
                        +:+ trigger_field rule +:+ "' is " +:+ PyStr.str_bool b)]
               else []) fs))).
        { induction fs as [|f fs IHfs]; intros Hsub; [constructor|].
          cbn [map concat]. apply Forall_app. split.
          - case_bool_decide; constructor; [|constructor].
            split; [done|]. split; [done|]. exists rule.
            split; [apply list_elem_of_here|]. right. apply Hsub, list_elem_of_here.
          - apply IHfs. intros f' Hf'. by apply Hsub, list_elem_of_further. }
        by apply H.
    + eapply Forall_impl; [exact IH|].
      intros x (Hs & Hr & rule0 & Hin & Hf). split; [done|]. split; [done|].
      exists rule0. split; [by apply list_elem_of_further|done].
Qed.

(** On a CSV without rows [validate_csv] fails with the single
    file-level ERROR, whatever the rules. *)
Lemma validate_csv_empty (rules : list ConditionalRule) :
  validate_csv rules [] = (false, [mkResult ERROR 0 "file" "CSV is empty"]).
Proof.
  unfold validate_csv.
  assert (_validate_conditionals rules [] = []) as ->.
  { apply conditionals_silent_without_state_aux. by intros ? r _ ?%elem_of_nil. }
  reflexivity.
Qed.


(** *** The registries *)

Lemma register_field_elements (st : Registries) (f : SchemaField) :
  element_registry (register_field st f)
  = if PyStr.truthy (default "" (f_id f))
    then <[default "" (f_id f) := f]> (element_registry st)
    else element_registry st.
Proof. unfold register_field. by destruct (PyStr.truthy _). Qed.

Lemma build_registries_flat (schema : list (list (list SchemaField))) :
  _build_registries schema
  = fold_left register_field (all_fields schema) (mkRegistries ∅ ∅).
Proof.
  unfold _build_registries, all_fields. generalize (mkRegistries ∅ ∅).
  induction schema as [|page schema IH]; intros st; [done|].
  cbn [fold_left concat]. rewrite IH, concat_app, fold_left_app. f_equal.
  clear IH. revert st. induction page as [|section page IHp]; intros st; [done|].
  cbn [fold_left concat]. by rewrite IHp, fold_left_app.
Qed.

Lemma truthy_true (s : string) : PyStr.truthy s = true ↔ s ≠ "".
Proof. by destruct s. Qed.

Lemma has_id_truthy (f : SchemaField) :
  PyStr.truthy (default "" (f_id f)) = true
  ↔ has_id f (default "" (f_id f)).
Proof.
  unfold has_id. rewrite truthy_true. destruct (f_id f) as [i|]; cbn.
  - split; [by intros ?|by intros [_ ?]].
  - split; [done|by intros [? _]].
Qed.

Lemma find_app {A} (p : A → bool) (l1 l2 : list A) :
  List.find p (l1 ++ l2)
  = match List.find p l1 with
    | Some x => Some x
    | None => List.find p l2
    end.
Proof.
  induction l1 as [|x l1 IH]; [done|]. cbn [app List.find].
  by destruct (p x).
Qed.

Lemma element_registry_fold (fields : list SchemaField) (st : Registries)
    (i : string) :
  element_registry (fold_left register_field fields st) !! i
  = match List.find (fun f => bool_decide (has_id f i)) (rev fields) with
    | Some f => Some f
    | None => element_registry st !! i
    end.
Proof.
  revert st. induction fields as [|f fields IH]; intros st; [done|].
  cbn [fold_left rev]. rewrite IH, find_app.
  destruct (List.find _ (rev fields)) as [f'|]; [done|].
  cbn [List.find]. rewrite register_field_elements.
  destruct (PyStr.truthy (default "" (f_id f))) eqn:Ht.
  - apply has_id_truthy in Ht. case_bool_decide as Hi.
    + destruct Hi as [Hi _], Ht as [Ht _]. rewrite Hi in Ht. cbn in Ht.
      rewrite Hi. cbn. apply lookup_insert_eq.
    + rewrite lookup_insert_ne; [done|]. intros <-. by apply Hi.
  - rewrite bool_decide_eq_false_2; [done|].
    intros [Hi Hne]. rewrite Hi in Ht. cbn in Ht. by apply truthy_false in Ht.
Qed.

(** X12: the element registry holds exactly the non-empty ids of the
    schema: a key is never empty, the field stored under a key carries
    that id and is a field of the schema, every field with a non-empty id
    has its id as a key, and an id that occurs twice keeps the later
    field. *)
Theorem element_registry_ids (schema : list (list (list SchemaField)))
    (i : string) :
  (∀ f, element_registry (_build_registries schema) !! i = Some f →
        has_id f i ∧ f ∈ all_fields schema)
  ∧ (∀ f, f ∈ all_fields schema → has_id f i →
          is_Some (element_registry (_build_registries schema) !! i))
  ∧ (∀ before f after,
       all_fields schema = before ++ f :: after → has_id f i →
       Forall (fun f' => ¬ has_id f' i) after →
       element_registry (_build_registries schema) !! i = Some f).
Proof.
  rewrite build_registries_flat. split; [|split].
  - intros f. rewrite element_registry_fold. cbn [element_registry].
    destruct (List.find _ _) as [f'|] eqn:Hfind; [|by rewrite lookup_empty].
    intros [= <-]. apply find_some in Hfind as [Hin Hid].
    apply bool_decide_eq_true in Hid. split; [done|].
    by apply list_elem_of_In, in_rev.
  - intros f Hin Hid. rewrite element_registry_fold.
    destruct (List.find _ _) as [f'|] eqn:Hfind; [done|]. exfalso.
    assert (Hno : bool_decide (has_id f i) = false).
    { apply (find_none _ _ Hfind f).
      apply in_rev. rewrite rev_involutive. by apply list_elem_of_In. }
    by rewrite bool_decide_eq_true_2 in Hno.
  - intros before f after Heq Hid Hafter.
    rewrite element_registry_fold, Heq, rev_app_distr. cbn [rev].
    rewrite <- app_assoc, find_app.
    destruct (List.find _ (rev after)) as [f'|] eqn:Hfind.
    + exfalso. apply find_some in Hfind as [Hin Hid'].
      apply bool_decide_eq_true in Hid'.
      rewrite Forall_forall in Hafter. apply (Hafter f'); [|done].
      by apply list_elem_of_In, in_rev.
    + cbn [app List.find]. by rewrite bool_decide_eq_true_2.
Qed.


Lemma register_xpath_writes (key : option string) (ident : string)
    (m : gmap string string) :
  register_xpath key ident m
  = fold_left write_registration (registration key ident) m.
Proof. by destruct key. Qed.

Lemma register_options_writes (opts : list SchemaOption) (m : gmap string string) :
  fold_left register_option opts m
  = fold_left write_registration
      (flat_map (fun o => registration (o_xpath o) (default "" (o_value o))) opts) m.
Proof.
  revert m. induction opts as [|o opts IH]; intros m; [done|].
  cbn [fold_left flat_map]. rewrite fold_left_app, IH.
  unfold register_option. by rewrite register_xpath_writes.
Qed.

Lemma register_field_writes (st : Registries) (f : SchemaField) :
  xpath_registry (register_field st f)
  = fold_left write_registration (field_registrations f) (xpath_registry st).
Proof.
  unfold register_field, field_registrations. cbn [xpath_registry].
  rewrite register_options_writes, fold_left_app. f_equal.
  destruct (PyStr.truthy _); [|done]. cbn [xpath_registry].
  rewrite !fold_left_app, <- !register_xpath_writes. done.
Qed.

Lemma xpath_registry_fold (fields : list SchemaField) (st : Registries) :
  xpath_registry (fold_left register_field fields st)
  = fold_left write_registration (flat_map field_registrations fields)
      (xpath_registry st).
Proof.
  revert st. induction fields as [|f fields IH]; intros st; [done|].
  cbn [fold_left flat_map]. by rewrite IH, fold_left_app, register_field_writes.
Qed.

Lemma writes_lookup_absent (regs : list (string * string))
    (m : gmap string string) (x : string) :
  x ∉ map fst regs → fold_left write_registration regs m !! x = m !! x.
Proof.
  revert m. induction regs as [|[k v] regs IH]; intros m Hx; [done|].
  cbn [fold_left]. cbn [map fst] in Hx. apply not_elem_of_cons in Hx as [Hne Hx].
  rewrite IH by done. unfold write_registration. cbn [fst snd].
  by apply lookup_insert_ne.
Qed.

Lemma writes_lookup_last (before after : list (string * string))
    (m : gmap string string) (x v : string) :
  x ∉ map fst after →
  fold_left write_registration (before ++ (x, v) :: after) m !! x = Some v.
Proof.
  intros Hx. rewrite fold_left_app. cbn [fold_left].
  rewrite writes_lookup_absent by done. apply lookup_insert_eq.
Qed.

(** Every list of writes that mentions a key has a last write to it. *)
Lemma last_write_exists (regs : list (string * string)) (x : string) :
  x ∈ map fst regs →
  ∃ before v after, regs = before ++ (x, v) :: after ∧ x ∉ map fst after.
Proof.
  induction regs as [|[k v] regs IH]; [by intros ?%elem_of_nil|].
  cbn [map fst]. intros Hx.
  destruct (decide (x ∈ map fst regs)) as [Hin|Hnin].
  - destruct (IH Hin) as (before & v' & after & -> & Hafter).
    by exists ((k, v) :: before), v', after.
  - apply elem_of_cons in Hx as [->|?]; [|done].
    by exists [], v, regs.
Qed.

(** X13: the XPath registry obeys "the last write wins": an XPath is a key
    exactly when some field or option of the schema registers it, and its
    identifier is the one of the last write to it, in document order and,
    within a field, in the order plain, true, false, trigger, options. *)
Theorem xpath_registry_last_write (schema : list (list (list SchemaField)))
    (x : string) :
  (xpath_registry (_build_registries schema) !! x = None
   ↔ x ∉ map fst (schema_registrations schema))
  ∧ (∀ v, xpath_registry (_build_registries schema) !! x = Some v
          ↔ ∃ before after,
              schema_registrations schema = before ++ (x, v) :: after
              ∧ x ∉ map fst after).
Proof.
  rewrite build_registries_flat, xpath_registry_fold. cbn [xpath_registry].
  fold (schema_registrations schema).
  destruct (decide (x ∈ map fst (schema_registrations schema))) as [Hin|Hnin].
  - destruct (last_write_exists _ _ Hin) as (before & v & after & Heq & Hafter).
    rewrite Heq, writes_lookup_last by done. split; [split; [done|]|].
    + intros Hn. exfalso. apply Hn. rewrite map_app. cbn [map fst].
      apply elem_of_app. right. apply list_elem_of_here.
    + intros v'. split.
      * intros [= <-]. by exists before, after.
      * intros (before' & after' & Heq' & Hafter').
        assert (Hl : fold_left write_registration (before ++ (x, v) :: after) ∅ !! x
                     = Some v') by (rewrite Heq'; by apply writes_lookup_last).
        rewrite writes_lookup_last in Hl by done. done.
  - rewrite writes_lookup_absent, lookup_empty by done. split; [done|].
    intros v. split; [done|]. intros (before & after & Heq & _). exfalso.
    apply Hnin. rewrite Heq, map_app. cbn [map fst].
    apply elem_of_app. right. apply list_elem_of_here.
Qed.

(** Two fields that share an XPath, and a field whose plain and true
    XPaths coincide: the later write is the one that is read back. *)
Example xpath_registry_collisions :
  let schema :=
    [[[mkField (Some "firstName") (Some "//*[@id='name']") None None None [];
       mkField (Some "lastName") (Some "//*[@id='name']") None None None []];
      [mkField (Some "isPep") (Some "//label[1]") (Some "//label[1]")
         (Some "//label[2]") None [];
       mkField None (Some "//ignored") None None None
         [mkOption (Some "//li[1]") (Some "SINGLE"); mkOption (Some "//li[2]") None]]]] in
  xpath_registry (_build_registries schema) !! "//*[@id='name']" = Some "lastName"
  ∧ xpath_registry (_build_registries schema) !! "//label[1]" = Some "isPep_true"
  ∧ xpath_registry (_build_registries schema) !! "//ignored" = None
  ∧ xpath_registry (_build_registries schema) !! "//li[1]" = Some "SINGLE"
  ∧ xpath_registry (_build_registries schema) !! "//li[2]" = Some ""
  ∧ f_xpath <$> element_registry (_build_registries schema) !! "lastName"
    = Some (Some "//*[@id='name']")
  ∧ element_registry (_build_registries schema) !! "" = None.
Proof. repeat split; vm_compute; reflexivity. Qed.

End ValidatorMore.

(** ** Further properties of the scenario validator *)
Module ScenarioMore.
Import Scenario Terms MoreTerms ScenarioProofs.

(** *** The parser *)

Lemma span_digits_all (s : string) : all_digits (PyStr.span_digits s).1 = true.
Proof.
  induction s as [|c s IH]; [done|]. cbn [PyStr.span_digits].
  destruct (PyStr.is_digit c) eqn:Hc; [|done].
  destruct (PyStr.span_digits s) as [d r]. cbn [fst all_digits] in *.
  by rewrite Hc, IH.
Qed.

Lemma search_count_digits (tail s d : string) :
  PyStr.search_count tail s = Some d → all_digits d = true ∧ d ≠ "".
Proof.
  assert (Hat : ∀ s', PyStr.match_count_at tail s' = Some d →
                      all_digits d = true ∧ d ≠ "").
  { intros s' Hm. unfold PyStr.match_count_at in Hm.
    pose proof (span_digits_all s') as Hd.
    destruct (PyStr.span_digits s') as [d0 r]. cbn [fst] in Hd.
    destruct (PyStr.truthy d0) eqn:Ht; [|done].
    destruct (String.prefix _ _); [|done]. injection Hm as <-.
    split; [done|]. by destruct d0. }
  induction s as [|c s IH]; cbn [PyStr.search_count].
  - destruct (PyStr.match_count_at tail "") eqn:Hm; [|done].
    intros [= ->]. by apply (Hat "").
  - destruct (PyStr.match_count_at tail (String c s)) as [d'|] eqn:Hm; [|done].
    intros [= ->]. by apply (Hat (String c s)).
Qed.

Lemma is_digit_value (c : ascii) :
  PyStr.is_digit c = true → 0 ≤ Z.of_N (N_of_ascii c) - 48 ≤ 9.
Proof.
  unfold PyStr.is_digit. cbv zeta.
  intros [H1 H2]%andb_true_iff. apply N.leb_le in H1, H2. lia.
Qed.

Lemma int_digits_nonneg (d : string) (acc : Z) :
  all_digits d = true → 0 ≤ acc → acc ≤ PyStr.int_digits acc d.
Proof.
  revert acc. induction d as [|c d IH]; intros acc Hd Hacc; [done|].
  cbn [all_digits] in Hd. apply andb_true_iff in Hd as [Hc Hd].
  cbn [PyStr.int_digits]. apply is_digit_value in Hc.
  etrans; [|apply IH; [done|lia]]. lia.
Qed.

Lemma parse_count_shape (noun text : string) :
  flag_count_shape (parse_count noun text).1 (parse_count noun text).2.
Proof.
  unfold parse_count, flag_count_shape.
  destruct (PyStr.contains _ text); [right; left; done|].
  destruct (PyStr.search_count noun text) as [d|] eqn:Hs; [|by left].
  right. right. split; [done|]. eexists. split; [done|].
  apply search_count_digits in Hs as [Hd _].
  by apply (int_digits_nonneg d 0).
Qed.

Lemma first_keyword_in_table (table : list (string * string)) (text v : string) :
  first_keyword table text = Some v → v ∈ map snd table.
Proof.
  induction table as [|[k v'] table IH]; [done|]. cbn [first_keyword map snd].
  destruct (PyStr.contains k text).
  - intros [= ->]. apply list_elem_of_here.
  - intros H. by apply list_elem_of_further, IH.
Qed.

(** X14: what [parse_scenario] can and cannot produce, for every text.
    Employer, sector, salary range and the list of positive PEP fields
    are never set.  A "has" flag and its count are set together: unset,
    or false with count 0, or true with a count that is not negative.
    The PEP and FATCA flags are unset or true, never false.  A FIP plan
    is set only with a true FIP flag.  The statuses are labels of the
    keyword tables and the gender is [male] or [female]. *)
Theorem parse_scenario_range (scenario : string) :
  let req := parse_scenario scenario in
  (employer req = None ∧ sector req = None ∧ salary_range req = None
   ∧ pep_positive_fields req = [])
  ∧ flag_count_shape (has_beneficiary req) (beneficiary_count req)
  ∧ flag_count_shape (has_joint_partner req) (joint_partner_count req)
  ∧ (all_pep_no req = None ∨ all_pep_no req = Some true)
  ∧ (all_fatca_no req = None ∨ all_fatca_no req = Some true)
  ∧ (is_Some (fip_plan req) → fip_application req = Some true)
  ∧ (∀ v, employment_status req = Some v → v ∈ map snd EMPLOYMENT_KEYWORDS)
  ∧ (∀ v, marital_status req = Some v → v ∈ map snd MARITAL_KEYWORDS)
  ∧ (∀ g, gender req = Some g → g = "male" ∨ g = "female").
Proof.
  cbv zeta. unfold parse_scenario.
  cbn [employer sector salary_range pep_positive_fields has_beneficiary
       beneficiary_count has_joint_partner joint_partner_count all_pep_no
       all_fatca_no fip_plan fip_application employment_status
       marital_status gender].
  set (t := PyStr.lower scenario).
  split; [done|]. split; [apply parse_count_shape|].
  split; [apply parse_count_shape|].
  split; [destruct (_ || _); auto|]. split; [destruct (_ || _); auto|].
  split.
  { destruct (PyStr.contains "no fip" t || PyStr.contains "not applying for fip" t);
      [by intros [? ?]|].
    destruct (PyStr.contains "fip" t); [done|by intros [? ?]]. }
  split; [apply first_keyword_in_table|]. split; [apply first_keyword_in_table|].
  intros g. destruct (PyStr.search_word "male" t); [intros [= <-]; by left|].
  destruct (PyStr.search_word "female" t); [intros [= <-]; by right|done].
Qed.


Lemma first_keyword_none (table : list (string * string)) (text : string) :
  first_keyword table text = None
  ↔ Forall (fun kv => PyStr.contains kv.1 text = false) table.
Proof.
  induction table as [|[k v] table IH]; [split; [constructor|done]|].
  cbn [first_keyword]. destruct (PyStr.contains k text) eqn:Hk.
  - split; [done|]. intros H. inversion_clear H as [|? ? Hk' _].
    cbn [fst] in Hk'. congruence.
  - rewrite IH. split; [by constructor|]. intros H. by inversion_clear H.
Qed.

Lemma first_keyword_hit (table : list (string * string)) (text : string)
    (n : nat) (v : string) :
  first_hit table text n v → first_keyword table text = Some v.
Proof.
  revert n. induction table as [|[k0 v0] table IH]; intros n (k & Hn & Hk & Hfirst);
    [done|].
  cbn [first_keyword]. destruct n as [|n].
  - injection Hn as -> ->. by rewrite Hk.
  - rewrite (Hfirst 0%nat k0 v0) by (lia || done). apply (IH n).
    exists k. split; [done|]. split; [done|].
    intros j k' v' Hj Hj'. apply (Hfirst (S j) k' v'); [lia|done].
Qed.

(** X15: the statuses follow the order of the keyword tables, not the order
    of the text: the status is the label of the first table entry whose
    keyword occurs in the lowercased scenario, and it is unset exactly when
    no keyword of the table occurs. *)
Theorem parse_scenario_keyword_priority (scenario : string) :
  (employment_status (parse_scenario scenario) = None
   ↔ Forall (fun kv => PyStr.contains kv.1 (PyStr.lower scenario) = false)
       EMPLOYMENT_KEYWORDS)
  ∧ (∀ n v, first_hit EMPLOYMENT_KEYWORDS (PyStr.lower scenario) n v →
            employment_status (parse_scenario scenario) = Some v)
  ∧ (marital_status (parse_scenario scenario) = None
     ↔ Forall (fun kv => PyStr.contains kv.1 (PyStr.lower scenario) = false)
         MARITAL_KEYWORDS)
  ∧ (∀ n v, first_hit MARITAL_KEYWORDS (PyStr.lower scenario) n v →
            marital_status (parse_scenario scenario) = Some v).
Proof.
  unfold parse_scenario. cbn [employment_status marital_status].
  split; [apply first_keyword_none|]. split; [apply first_keyword_hit|].
  split; [apply first_keyword_none|]. apply first_keyword_hit.
Qed.

(** A scenario that names a later table entry first in the text. *)
Lemma parse_scenario_keyword_priority_witness :
  employment_status
    (parse_scenario "Retired pensioned, formerly part-time, once Full-Time Permanent")
  = Some "FULL TIME PERMANENT".
Proof.
  refine (proj1 (proj2 (parse_scenario_keyword_priority _)) 0%nat _ _).
  exists "full-time permanent". split; [reflexivity|]. split; [reflexivity|].
  intros j k v Hj. lia.
Defined.

(** *** Reading booleans from the rows *)

Lemma has_element_false (rows : list (gmap string string)) (e : string) :
  has_element rows e = false
  ↔ Forall (fun r => get r "Element" ≠ Some e) rows.
Proof.
  unfold has_element. induction rows as [|r rows IH].
  - split; [constructor|done].
  - cbn [existsb]. rewrite orb_false_iff, IH, bool_decide_eq_false.
    split; [intros []; by constructor|]. intros H. by inversion_clear H.
Qed.

Lemma get_field_value_no_input (rows : list (gmap string string)) (e : string) :
  Forall (fun r => ¬ is_input_of e r) rows → get_field_value rows e = None.
Proof.
  induction 1 as [|r rows Hr _ IH]; [done|].
  by rewrite get_field_value_cons, decide_False.
Qed.

Lemma click_value_cons (r : gmap string string) rows e :
  click_value (r :: rows) e
  = if decide (is_click_of e r) then
      if PyStr.contains "label[1]" (get_or r "XPath" "") then Some true
      else if PyStr.contains "label[2]" (get_or r "XPath" "") then Some false
      else click_value rows e
    else click_value rows e.
Proof.
  cbn [click_value]. unfold is_click_of.
  destruct (decide _) as [[-> ->]|Hn].
  - by rewrite !bool_decide_eq_true_2.
  - repeat case_bool_decide; cbn [andb]; try done. by destruct Hn.
Qed.

Lemma click_value_no_click (rows : list (gmap string string)) (e : string) :
  Forall (fun r => is_click_of e r → labelled r = false) rows →
  click_value rows e = None.
Proof.
  induction 1 as [|r rows Hr _ IH]; [done|].
  rewrite click_value_cons. destruct (decide _) as [Hc|]; [|done].
  specialize (Hr Hc). unfold labelled in Hr.
  apply orb_false_iff in Hr as [-> ->]. done.
Qed.

Lemma click_value_app (pre rows : list (gmap string string)) (e : string) :
  Forall (fun r => is_click_of e r → labelled r = false) pre →
  click_value (pre ++ rows) e = click_value rows e.
Proof.
  induction 1 as [|r pre Hr _ IH]; [done|].
  cbn [app]. rewrite click_value_cons. destruct (decide _) as [Hc|]; [|done].
  specialize (Hr Hc). unfold labelled in Hr.
  apply orb_false_iff in Hr as [-> ->]. done.
Qed.

(** X16: an element that no row mentions has no value: [get_field_value]
    and [get_boolean_value] are unset, and the LinCU and FIP checks, which
    do not fall back on anything, FAIL with "Not found" whatever the
    scenario asked for. *)
Theorem absent_element_unset (rows : list (gmap string string))
    (e check_name : string) (required : bool) :
  has_element rows e = false →
  get_field_value rows e = None
  ∧ get_boolean_value rows e = None
  ∧ flag_check rows check_name e (Some required)
    = [mkCheck check_name FAIL (PyStr.str_bool required) "Not found" ""].
Proof.
  intros Habs. apply has_element_false in Habs.
  assert (Hfv : get_field_value rows e = None).
  { apply get_field_value_no_input. eapply Forall_impl; [exact Habs|].
    intros r Hr [He _]. done. }
  assert (Hbv : get_boolean_value rows e = None).
  { unfold get_boolean_value. rewrite Hfv. apply click_value_no_click.
    eapply Forall_impl; [exact Habs|]. intros r Hr [He _]. done. }
  split; [done|]. split; [done|]. unfold flag_check. rewrite Hbv.
  by rewrite bool_decide_eq_false_2.
Qed.

(** A CSV that never touches the LinCU field, checked against "no LinCU". *)
Lemma absent_element_unset_witness :
  flag_check [page_row "Other Products"] "LinCU Card Application"
    "isApplyingForLincuCardApplication" (Some false)
  = [mkCheck "LinCU Card Application" FAIL "False" "Not found" ""].
Proof.
  apply (absent_element_unset [page_row "Other Products"]). reflexivity.
Defined.

(** X17: without an [Input] row of the element, its boolean is read from
    the first click row of the element whose XPath holds [label[1]] or
    [label[2]]: true for [label[1]] (also when both occur), false
    otherwise; clicks of the element without a label marker are passed
    over. *)
Theorem boolean_value_from_first_labelled_click
    (pre post : list (gmap string string)) (r : gmap string string) (e : string) :
  Forall (fun r' => ¬ is_input_of e r') (pre ++ r :: post) →
  Forall (fun r' => is_click_of e r' → labelled r' = false) pre →
  is_click_of e r → labelled r = true →
  get_boolean_value (pre ++ r :: post) e
  = Some (PyStr.contains "label[1]" (get_or r "XPath" "")).
Proof.
  intros Hnoinput Hpre Hr Hlab. unfold get_boolean_value.
  rewrite get_field_value_no_input by done.
  rewrite click_value_app by done. rewrite click_value_cons, decide_True by done.
  unfold labelled in Hlab.
  destruct (PyStr.contains "label[1]" _); [done|]. cbn [orb] in Hlab.
  by rewrite Hlab.
Qed.

(** A click on the field's container, then the click on its second label,
    then a click on the first label that comes too late. *)
Lemma boolean_value_from_first_labelled_click_witness :
  get_boolean_value
    ([click_row "isHeadOfState" "//div[@id='pep']"]
     ++ click_row "isHeadOfState" "//div/label[2]"
     :: [click_row "isHeadOfState" "//div/label[1]"]) "isHeadOfState"
  = Some (PyStr.contains "label[1]"
            (get_or (click_row "isHeadOfState" "//div/label[2]") "XPath" "")).
Proof.
  apply boolean_value_from_first_labelled_click.
  - repeat constructor; intros [_ Hi]; vm_compute in Hi; discriminate.
  - constructor; [|constructor]. intros _. reflexivity.
  - split; reflexivity.
  - reflexivity.
Defined.


(** X18: the two validators read a repeated boolean differently.  The
    scenario validator takes the first [Input] row of the element; the
    conditional-rule check of the structural validator takes the last
    [Input] row whose value is one of the four boolean literals. *)
Theorem repeated_boolean_first_versus_last
    (pre mid post : list (gmap string string)) (r1 r2 : gmap string string)
    (e v1 : string) :
  Forall (fun r => ¬ is_input_of e r) pre →
  is_input_of e r1 → get r1 "Value" = Some v1 →
  is_bool_input e r2 →
  Forall (fun r => ¬ is_bool_input e r) post →
  get_boolean_value (pre ++ r1 :: mid ++ r2 :: post) e
  = Some (bool_decide (PyStr.lower v1 = "true"))
  ∧ Validator.boolean_states_of (pre ++ r1 :: mid ++ r2 :: post) !! e
    = Some (recorded_bool r2).
Proof.
  intros Hpre Hr1 Hv1 Hr2 Hpost. split.
  - unfold get_boolean_value. by rewrite get_field_value_first, Hv1.
  - replace (pre ++ r1 :: mid ++ r2 :: post)
      with ((pre ++ r1 :: mid) ++ r2 :: post) by by rewrite <- app_assoc.
    by apply ValidatorProofs.boolean_states_last.
Qed.

(** The FIP trigger answered [true] and later [false]: the scenario
    validator reads true, the rule check records false. *)
Lemma repeated_boolean_first_versus_last_witness :
  get_boolean_value
    ([] ++ input_row "isApplyingForFipApplication" "true"
     :: [] ++ input_row "isApplyingForFipApplication" "false" :: [])
    "isApplyingForFipApplication" = Some true
  ∧ Validator.boolean_states_of
      ([] ++ input_row "isApplyingForFipApplication" "true"
       :: [] ++ input_row "isApplyingForFipApplication" "false" :: [])
      !! "isApplyingForFipApplication" = Some false.
Proof.
  apply (repeated_boolean_first_versus_last [] [] []
           (input_row "isApplyingForFipApplication" "true")
           (input_row "isApplyingForFipApplication" "false")
           "isApplyingForFipApplication" "true").
  - constructor.
  - split; reflexivity.
  - reflexivity.
  - split; [reflexivity|]. split; [reflexivity|].
    apply list_elem_of_In. vm_compute. tauto.
  - constructor.
Defined.

(** *** Counting elements *)

Lemma prefix_refl (s : string) : String.prefix s s = true.
Proof.
  induction s as [|c s IH]; [done|]. cbn [String.prefix].
  destruct (ascii_dec c c); [done|congruence].
Qed.

Lemma contains_refl (s : string) : PyStr.contains s s = true.
Proof. destruct s; [done|]. cbn [PyStr.contains]. by rewrite prefix_refl. Qed.

Lemma count_element_occurrences_cons (r : gmap string string) rows p :
  count_element_occurrences (r :: rows) p
  = (if PyStr.search_literal_ci p (get_or r "Element" "") then 1 else 0)
    + count_element_occurrences rows p.
Proof.
  unfold count_element_occurrences. cbn [List.filter].
  destruct (PyStr.search_literal_ci _ _); cbn [length]; lia.
Qed.

(** X19: for a pattern that is a plain literal, the count of occurrences
    lies between 0 and the number of rows, adds up over concatenated
    CSVs, and is at least 1 as soon as [has_element] finds the pattern as
    an exact element name. *)
Theorem count_element_occurrences_bounds
    (rows rows2 : list (gmap string string)) (p : string) :
  plain_pattern p = true →
  0 ≤ count_element_occurrences rows p ≤ Z.of_nat (length rows)
  ∧ count_element_occurrences (rows ++ rows2) p
    = count_element_occurrences rows p + count_element_occurrences rows2 p
  ∧ (has_element rows p = true → 1 ≤ count_element_occurrences rows p).
Proof.
  intros _. split; [|split].
  - unfold count_element_occurrences.
    pose proof (List.filter_length_le
      (fun r => PyStr.search_literal_ci p (get_or r "Element" "")) rows). lia.
  - induction rows as [|r rows IH]; [done|].
    cbn [app]. rewrite !count_element_occurrences_cons, IH. lia.
  - induction rows as [|r rows IH]; [done|].
    unfold has_element in *. cbn [existsb].
    rewrite count_element_occurrences_cons.
    assert (0 ≤ count_element_occurrences rows p).
    { unfold count_element_occurrences. lia. }
    case_bool_decide as He.
    + intros _. rewrite (get_or_Some _ _ _ _ He).
      unfold PyStr.search_literal_ci. rewrite contains_refl. lia.
    + cbn [orb]. intros Hrest. specialize (IH Hrest).
      destruct (PyStr.search_literal_ci _ _); lia.
Qed.

(** The OTP pattern on a CSV whose element names differ in case and carry
    a suffix. *)
Lemma count_element_occurrences_bounds_witness :
  1 ≤ count_element_occurrences
        [input_row "otp-input-0" "1"; input_row "OTP-Input-0-final" "1"]
        "otp-input-0".
Proof.
  apply (count_element_occurrences_bounds _ []); reflexivity.
Defined.


(** *** The dropdown lookup *)

Lemma dropdown_loop_cons (found : bool) (t : string) (r : gmap string string) rows :
  dropdown_loop found t (r :: rows)
  = if trigger_click t r then dropdown_loop true t rows
    else if found && option_click r then Some (get_or r "Element" "")
    else dropdown_loop found t rows.
Proof.
  cbn [dropdown_loop]. unfold trigger_click, option_click.
  by rewrite andb_assoc.
Qed.

Lemma dropdown_loop_not_found (t : string) (rows : list (gmap string string)) :
  Forall (fun r => trigger_click t r = false) rows →
  dropdown_loop false t rows = None.
Proof.
  induction 1 as [|r rows Hr _ IH]; [done|].
  by rewrite dropdown_loop_cons, Hr.
Qed.

Lemma dropdown_loop_found_none (t : string) (rows : list (gmap string string)) :
  Forall (fun r => trigger_click t r = true ∨ option_click r = false) rows →
  dropdown_loop true t rows = None.
Proof.
  induction 1 as [|r rows Hr _ IH]; [done|].
  rewrite dropdown_loop_cons. destruct (trigger_click t r); [done|].
  destruct Hr as [Hr|Hr]; [done|]. by rewrite Hr.
Qed.

Lemma dropdown_loop_found_skip (t : string) (mid rows : list (gmap string string)) :
  Forall (fun r => trigger_click t r = true ∨ option_click r = false) mid →
  dropdown_loop true t (mid ++ rows) = dropdown_loop true t rows.
Proof.
  induction 1 as [|r mid Hr _ IH]; [done|].
  cbn [app]. rewrite dropdown_loop_cons. destruct (trigger_click t r); [done|].
  destruct Hr as [Hr|Hr]; [done|]. by rewrite Hr.
Qed.

Lemma dropdown_loop_sound (found : bool) (t e : string)
    (rows : list (gmap string string)) :
  dropdown_loop found t rows = Some e →
  ∃ r, r ∈ rows ∧ e = get_or r "Element" ""
       ∧ option_click r = true ∧ trigger_click t r = false.
Proof.
  revert found. induction rows as [|r rows IH]; intros found; [done|].
  rewrite dropdown_loop_cons. destruct (trigger_click t r) eqn:Ht.
  - intros (r' & Hin & H)%IH. exists r'. split; [by apply list_elem_of_further|done].
  - destruct (found && option_click r) eqn:Ho.
    + intros [= <-]. exists r. split; [apply list_elem_of_here|].
      apply andb_true_iff in Ho as [_ Ho]. done.
    + intros (r' & Hin & H)%IH. exists r'.
      split; [by apply list_elem_of_further|done].
Qed.

(** X20: [get_selected_dropdown_value] answers with the element of the
    first option click that follows the first trigger click and is not
    itself a trigger click.  It is unset when no row is a trigger click,
    and when no such option click follows.  The element it returns never
    contains the trigger text. *)
Theorem selected_dropdown_value_spec (t : string) :
  (∀ rows, Forall (fun r => trigger_click t r = false) rows →
           get_selected_dropdown_value rows t = None)
  ∧ (∀ pre tr mid,
       Forall (fun r => trigger_click t r = false) pre →
       trigger_click t tr = true →
       Forall (fun r => trigger_click t r = true ∨ option_click r = false) mid →
       get_selected_dropdown_value (pre ++ tr :: mid) t = None
       ∧ ∀ r post, trigger_click t r = false → option_click r = true →
           get_selected_dropdown_value (pre ++ tr :: mid ++ r :: post) t
           = Some (get_or r "Element" ""))
  ∧ (∀ rows e, get_selected_dropdown_value rows t = Some e →
       PyStr.contains (PyStr.lower t) (PyStr.lower e) = false
       ∧ ∃ r, r ∈ rows ∧ e = get_or r "Element" "" ∧ option_click r = true).
Proof.
  unfold get_selected_dropdown_value.
  assert (Hpre : ∀ pre rows,
    Forall (fun r => trigger_click t r = false) pre →
    dropdown_loop false t (pre ++ rows) = dropdown_loop false t rows).
  { intros pre rows H. induction H as [|r pre Hr _ IH]; [done|].
    cbn [app]. by rewrite dropdown_loop_cons, Hr. }
  split; [apply dropdown_loop_not_found|]. split.
  - intros pre tr mid Hp Htr Hmid. split.
    + rewrite Hpre, dropdown_loop_cons, Htr by done.
      by apply dropdown_loop_found_none.
    + intros r post Hr Ho.
      rewrite Hpre, dropdown_loop_cons, Htr by done.
      rewrite dropdown_loop_found_skip, dropdown_loop_cons, Hr, Ho by done.
      done.
  - intros rows e (r & Hin & -> & Ho & Ht)%dropdown_loop_sound. split.
    + unfold trigger_click, option_click in *.
      apply andb_true_iff in Ho as [Hc _]. rewrite Hc in Ht.
      by rewrite andb_true_r in Ht.
    + by exists r.
Qed.

(** The trigger is clicked twice, a non-option click comes between, and
    two options follow: the first option is the answer. *)
Example selected_dropdown_value_example :
  get_selected_dropdown_value
    [page_row "Additional Details";
     full_row "Additional Details" "Marital Status" "click" "" "text" "//div[1]";
     full_row "Additional Details" "marital status label" "click" "" "text"
       "//li[@role='option'][9]";
     full_row "Additional Details" "scroll" "click" "" "text" "//div[2]";
     full_row "Additional Details" "MARRIED" "Input" "" "text" "//li[@role='option'][1]";
     full_row "Additional Details" "SINGLE" "click" "" "text" "//li[@role='Option'][2]";
     full_row "Additional Details" "DIVORCED" "click" "" "text" "//li[@role='option'][3]"]
    "Marital Status" = Some "SINGLE".
Proof. reflexivity. Qed.


(** *** The checks of [validate] *)

Lemma fail_blocks (set_repr : gset string → string)
    (rows : list (gmap string string)) (scenario : string) (c : ValidationCheck) :
  c ∈ (validate set_repr rows scenario).2 → result c = FAIL →
  (validate set_repr rows scenario).1 = false.
Proof.
  intros Hin Hfail.
  destruct ((validate set_repr rows scenario).1) eqn:Hp; [|done].
  unfold validate in Hp, Hin. cbn [fst snd] in Hp, Hin.
  apply no_fail_iff in Hp. rewrite Forall_forall in Hp.
  by destruct (Hp c Hin).
Qed.

Lemma page_coverage_in_checks (set_repr : gset string → string)
    (rows : list (gmap string string)) (scenario : string) :
  page_coverage_check set_repr rows ∈ (validate set_repr rows scenario).2.
Proof.
  unfold validate, checks_before_otp. cbn [snd].
  apply elem_of_app. left. apply list_elem_of_further, list_elem_of_here.
Qed.

(** X21: [validate] fails as soon as one of the six expected pages is
    matched by no row, whatever the scenario says; the page check then
    counts fewer than six pages.  In particular it fails on a CSV without
    rows. *)
Theorem validate_fails_on_missing_page (set_repr : gset string → string)
    (rows : list (gmap string string)) (scenario ep : string) :
  ep ∈ EXPECTED_PAGES →
  Forall (fun r => page_matches (get_or r "Group" "") ep = false) rows →
  result (page_coverage_check set_repr rows) = FAIL
  ∧ (size (pages_normalized rows) < 6)%nat
  ∧ (validate set_repr rows scenario).1 = false.
Proof.
  intros Hep Hrows.
  assert (Hnot : ep ∉ pages_normalized rows).
  { rewrite elem_of_pages_normalized. intros (_ & r & Hr & Hm).
    rewrite Forall_forall in Hrows. rewrite (Hrows r Hr) in Hm. done. }
  assert (Hfail : result (page_coverage_check set_repr rows) = FAIL).
  { unfold page_coverage_check. cbn [result].
    rewrite bool_decide_eq_false_2; [done|].
    intros Hempty. apply Hnot.
    destruct (decide (ep ∈ pages_normalized rows)) as [|Hn]; [done|].
    exfalso. apply (not_elem_of_empty (C := gset string) ep).
    rewrite <- Hempty. apply elem_of_difference. split; [|done].
    by apply elem_of_list_to_set. }
  split; [done|]. split.
  - assert (Hsub : pages_normalized rows ⊆ list_to_set EXPECTED_PAGES ∖ {[ep]}).
    { intros x Hx. apply elem_of_difference. split.
      - apply elem_of_list_to_set. by apply elem_of_pages_normalized in Hx as [? _].
      - intros ->%elem_of_singleton. done. }
    apply subseteq_size in Hsub.
    assert (Hsix : size (list_to_set EXPECTED_PAGES ∖ {[ep]} : gset string) = 5%nat).
    { unfold EXPECTED_PAGES in Hep. set_unfold in Hep.
      destruct_or!; try done; subst ep; by vm_compute. }
    lia.
  - eapply fail_blocks; [apply page_coverage_in_checks|done].
Qed.

(** The CSV without rows, against any scenario. *)
Lemma validate_fails_on_missing_page_witness :
  (validate (fun _ => "") [] "Single male, full-time permanent").1 = false.
Proof.
  apply (validate_fails_on_missing_page (fun _ => "") [] _ "Documents").
  - unfold EXPECTED_PAGES. apply list_elem_of_further, list_elem_of_here.
  - constructor.
Defined.

Lemma keyword_labels_truthy (v : string) :
  v ∈ map snd EMPLOYMENT_KEYWORDS ∨ v ∈ map snd MARITAL_KEYWORDS →
  PyStr.truthy v = true.
Proof.
  unfold EMPLOYMENT_KEYWORDS, MARITAL_KEYWORDS. cbn [map snd].
  intros H. set_unfold in H. destruct_or!; try done; by subst v.
Qed.

(** X22: a scenario that names an employment status fails validation on a
    CSV in which no click touches an element named after "Employment
    Status": the dropdown value is unset and the check reads
    "Not found". *)
Theorem employment_check_needs_trigger (set_repr : gset string → string)
    (rows : list (gmap string string)) (scenario v : string) :
  employment_status (parse_scenario scenario) = Some v →
  Forall (fun r => trigger_click "Employment Status" r = false) rows →
  mkCheck "Employment Status" FAIL v "Not found" ""
    ∈ (validate set_repr rows scenario).2
  ∧ (validate set_repr rows scenario).1 = false.
Proof.
  intros Hv Hrows.
  assert (Hin : mkCheck "Employment Status" FAIL v "Not found" ""
                  ∈ (validate set_repr rows scenario).2).
  { unfold validate, checks_before_otp. cbn [snd]. rewrite Hv.
    apply elem_of_app. left. do 2 apply list_elem_of_further.
    apply elem_of_app. left. unfold dropdown_check.
    rewrite keyword_labels_truthy.
    - unfold get_selected_dropdown_value.
      rewrite dropdown_loop_not_found by done. apply list_elem_of_here.
    - left. unfold parse_scenario in Hv. cbn [employment_status] in Hv.
      by apply first_keyword_in_table in Hv. }
  split; [done|]. by eapply fail_blocks.
Qed.

(** All six pages and both OTP inputs, but the status is typed in, not
    picked from the dropdown. *)
Lemma employment_check_needs_trigger_witness :
  (validate (fun _ => "")
     [full_row "Contact Info" "otp-input-0" "Input" "1" "id" "//*[@id='otp']";
      page_row "Documents";
      full_row "Additional Details" "employmentStatus" "Input" "PART TIME" "id"
        "//*[@id='employmentStatus']";
      page_row "Other Products"; page_row "PEP / FATCA";
      full_row "PDF / Other Details" "otp-input-0" "Input" "1" "id" "//*[@id='otp']"]
     "Married, part-time").1 = false.
Proof.
  apply (employment_check_needs_trigger _ _ _ "PART TIME").
  - reflexivity.
  - repeat constructor.
Defined.

(** X23: the "all PEP answers no" and "all FATCA answers no" checks pass
    exactly when none of their fields reads true; a field that the CSV
    never mentions counts as no. *)
Theorem all_no_check_passes (rows : list (gmap string string))
    (check_name : string) (fields : list string) :
  (all_no_check rows check_name fields (Some true)
   = [mkCheck check_name PASS "All False" "All False" ""]
   ↔ Forall (fun f => get_boolean_value rows f ≠ Some true) fields)
  ∧ (all_no_check rows check_name fields (Some true)
     = [mkCheck check_name FAIL "All False" "Some True" ""]
     ↔ Exists (fun f => get_boolean_value rows f = Some true) fields)
  ∧ (Forall (fun f => has_element rows f = false) fields →
     all_no_check rows check_name fields (Some true)
     = [mkCheck check_name PASS "All False" "All False" ""]).
Proof.
  unfold all_no_check. rewrite bool_decide_eq_true_2 by done.
  assert (Hex : existsb (fun f => bool_decide (get_boolean_value rows f = Some true)) fields
                = true ↔ Exists (fun f => get_boolean_value rows f = Some true) fields).
  { rewrite existsb_exists, Exists_exists. split; intros (f & Hin & Hf); exists f.
    - split; [by apply list_elem_of_In|by apply bool_decide_eq_true in Hf].
    - split; [by apply list_elem_of_In|by apply bool_decide_eq_true_2]. }
  assert (Hall : Forall (fun f => get_boolean_value rows f ≠ Some true) fields
                 ↔ ¬ Exists (fun f => get_boolean_value rows f = Some true) fields).
  { rewrite Forall_forall, Exists_exists. split.
    - intros H (f & Hin & Hf). by apply (H f).
    - intros H f Hin Hf. apply H. by exists f. }
  destruct (existsb _ fields) eqn:He; cbn [negb pass_or].
  - assert (Htrue : Exists (fun f => get_boolean_value rows f = Some true) fields)
      by by apply Hex.
    split; [|split].
    + split; [done|]. intros HF. by apply Hall in HF.
    + done.
    + intros Habs. exfalso. apply Exists_exists in Htrue as (f & Hin & Hf).
      rewrite Forall_forall in Habs. specialize (Habs f Hin).
      apply has_element_false in Habs.
      assert (Hbv : get_boolean_value rows f = None); [|congruence].
      unfold get_boolean_value. rewrite get_field_value_no_input.
      * apply click_value_no_click. eapply Forall_impl; [exact Habs|].
        by intros r Hr [He' _].
      * eapply Forall_impl; [exact Habs|]. by intros r Hr [He' _].
  - assert (Hfalse : ¬ Exists (fun f => get_boolean_value rows f = Some true) fields).
    { intros H. apply Hex in H. done. }
    split; [|split]; [|split; [done|by intros ?]|done].
    split; [intros _; by apply Hall|done].
Qed.


Lemma pass_or_cases (other : CheckResult) (ok : bool) :
  pass_or other ok = PASS ∨ pass_or other ok = other.
Proof. destruct ok; auto. Qed.

Lemma dropdown_check_block rows n t req :
  block_of n FAIL (dropdown_check rows n t req).
Proof.
  unfold dropdown_check, block_of. destruct req as [v|]; [|by left].
  destruct (PyStr.truthy v); [|by left]. right. eexists. split; [done|].
  split; [done|]. apply pass_or_cases.
Qed.

Lemma section_check_block rows n flag proxy req :
  block_of n FAIL (section_check rows n flag proxy req).
Proof.
  unfold section_check, block_of. destruct req as [b|]; [|by left].
  right. eexists. split; [done|]. split; [done|]. apply pass_or_cases.
Qed.

Lemma flag_check_block rows n flag req :
  block_of n FAIL (flag_check rows n flag req).
Proof.
  unfold flag_check, block_of. destruct req as [b|]; [|by left].
  right. eexists. split; [done|]. split; [done|]. apply pass_or_cases.
Qed.

Lemma all_no_check_block rows n fields req :
  block_of n FAIL (all_no_check rows n fields req).
Proof.
  unfold all_no_check, block_of. destruct (bool_decide _); [|by left].
  right. eexists. split; [done|]. split; [done|]. apply pass_or_cases.
Qed.

Lemma beneficiary_count_check_block rows req :
  block_of "Beneficiary Count" WARN (beneficiary_count_check rows req).
Proof.
  unfold beneficiary_count_check, block_of.
  destruct (has_beneficiary req); [|by left].
  destruct (beneficiary_count req) as [n|]; [|by left].
  destruct (0 <? n); [|by left].
  right. eexists. split; [done|]. split; [done|]. apply pass_or_cases.
Qed.

Lemma block_length n other l : block_of n other l → (length l ≤ 1)%nat.
Proof. intros [->|(c & -> & _)]; simpl; lia. Qed.

Lemma block_kind_fail n l :
  n ∈ ["Page Coverage"; "Employment Status"; "Marital Status";
       "Has Beneficiary"; "Has Joint Partner";
       "LinCU Card Application"; "FIP Application";
       "All PEP Questions = No"; "All FATCA Questions = No"] →
  block_of n FAIL l → Forall check_kind l.
Proof.
  intros Hn [->|(c & -> & Hname & Hres)]; [constructor|].
  constructor; [|constructor]. right. right. by rewrite Hname.
Qed.

Lemma block_kind_warn n l :
  n ∈ ["Beneficiary Count"; "OTP Verifications"] →
  block_of n WARN l → Forall check_kind l.
Proof.
  intros Hn [->|(c & -> & Hname & Hres)]; [constructor|].
  constructor; [|constructor]. right. left. by rewrite Hname.
Qed.

(** X24: the report of [validate] always opens with the informational row
    count, whose [actual] is the number of rows, followed by the page
    coverage, and closes with the OTP check; it holds between 3 and 12
    checks.  Only the row count is INFO; only the beneficiary count and
    the OTP check can be WARN, and they are never FAIL; every other check
    is PASS or FAIL. *)
Theorem validate_report_shape (set_repr : gset string → string)
    (rows : list (gmap string string)) (scenario : string) :
  (∃ middle,
     (validate set_repr rows scenario).2
     = mkCheck "Row Count" INFO "100-400 typical"
         (str_int (Z.of_nat (length rows))) "Total rows in generated CSV"
       :: page_coverage_check set_repr rows :: middle ++ [otp_check rows]
     ∧ (length middle ≤ 9)%nat)
  ∧ (3 ≤ length (validate set_repr rows scenario).2 ≤ 12)%nat
  ∧ Forall check_kind (validate set_repr rows scenario).2.
Proof.
  unfold validate, checks_before_otp. cbn [snd].
  set (req := parse_scenario scenario).
  pose proof (dropdown_check_block rows "Employment Status" "Employment Status"
                (employment_status req)) as B1.
  pose proof (dropdown_check_block rows "Marital Status" "Marital Status"
                (marital_status req)) as B2.
  pose proof (section_check_block rows "Has Beneficiary" "hasBeneficiary"
                "beneficiaryMobileNo" (has_beneficiary req)) as B3.
  pose proof (beneficiary_count_check_block rows req) as B4.
  pose proof (section_check_block rows "Has Joint Partner" "hasJointPartner"
                "customerId" (has_joint_partner req)) as B5.
  pose proof (flag_check_block rows "LinCU Card Application"
                "isApplyingForLincuCardApplication" (lincu_card req)) as B6.
  pose proof (flag_check_block rows "FIP Application"
                "isApplyingForFipApplication" (fip_application req)) as B7.
  pose proof (all_no_check_block rows "All PEP Questions = No" PEP_FIELDS
                (all_pep_no req)) as B8.
  pose proof (all_no_check_block rows "All FATCA Questions = No" FATCA_FIELDS
                (all_fatca_no req)) as B9.
  pose proof (block_length _ _ _ B1). pose proof (block_length _ _ _ B2).
  pose proof (block_length _ _ _ B3). pose proof (block_length _ _ _ B4).
  pose proof (block_length _ _ _ B5). pose proof (block_length _ _ _ B6).
  pose proof (block_length _ _ _ B7). pose proof (block_length _ _ _ B8).
  pose proof (block_length _ _ _ B9).
  split; [|split].
  - eexists. split; [reflexivity|]. rewrite !length_app. lia.
  - cbn [app length]. rewrite !length_app. cbn [length]. lia.
  - cbn [app]. constructor; [by left|]. constructor.
    { right. right. split; [apply list_elem_of_here|].
      unfold page_coverage_check. cbn [result]. apply pass_or_cases. }
    rewrite !Forall_app.
    repeat split.
    all: try (eapply block_kind_fail; [|eassumption];
              repeat first [apply list_elem_of_here | apply list_elem_of_further]).
    all: try (eapply block_kind_warn; [|eassumption];
              repeat first [apply list_elem_of_here | apply list_elem_of_further]).
    constructor; [|constructor]. right. left.
    split; [apply list_elem_of_further, list_elem_of_here|].
    unfold otp_check. cbn [result]. apply pass_or_cases.
Qed.

(** X25: when the CSV gives the section flag no value, the beneficiary and
    joint-partner checks fall back on the presence of the section's proxy
    field: the check passes exactly when "the proxy field occurs" equals
    what the scenario asked for. *)
Theorem section_check_fallback (rows : list (gmap string string))
    (check_name flag_field proxy_field : string) (required : bool) :
  has_element rows flag_field = false →
  section_check rows check_name flag_field proxy_field (Some required)
  = [mkCheck check_name
       (if bool_decide (has_element rows proxy_field = required) then PASS else FAIL)
       (PyStr.str_bool required)
       (PyStr.str_bool (has_element rows proxy_field)) ""].
Proof.
  intros Habs. apply has_element_false in Habs. unfold section_check.
  assert (get_boolean_value rows flag_field = None) as ->; [|done].
  unfold get_boolean_value. rewrite get_field_value_no_input.
  - apply click_value_no_click. eapply Forall_impl; [exact Habs|].
    by intros r Hr [He _].
  - eapply Forall_impl; [exact Habs|]. by intros r Hr [He _].
Qed.

(** "No beneficiaries" against a CSV that fills a beneficiary's phone. *)
Lemma section_check_fallback_witness :
  section_check
    [full_row "Other Products" "beneficiaryMobileNo" "Input" "555-1234" "id"
       "//*[@id='beneficiaryMobileNo']"]
    "Has Beneficiary" "hasBeneficiary" "beneficiaryMobileNo" (Some false)
  = [mkCheck "Has Beneficiary" FAIL "False" "True" ""].
Proof.
  rewrite section_check_fallback; reflexivity.
Defined.

End ScenarioMore.

(** ** Properties of the CSV repair *)
Module GeneratorMore.
Import Generator MoreTerms.

Lemma append_cons (a : ascii) (s t : string) :
  String a s +:+ t = String a (s +:+ t).
Proof. reflexivity. Qed.

Lemma append_add_char (s : string) (c : ascii) (t : string) :
  add_char s c +:+ t = s +:+ String c t.
Proof.
  unfold add_char. induction s as [|a s IH]; [done|].
  by rewrite !append_cons, IH.
Qed.

Lemma append_empty_r (s : string) : s +:+ EmptyString = s.
Proof. induction s as [|a s IH]; [done|]. by rewrite append_cons, IH. Qed.

Lemma append_assoc (s t u : string) : (s +:+ t) +:+ u = s +:+ (t +:+ u).
Proof. induction s as [|a s IH]; [done|]. by rewrite !append_cons, IH. Qed.

Lemma join_commas_cons (x y : string) (l : list string) :
  join_commas (x :: y :: l) = x +:+ String comma_char (join_commas (y :: l)).
Proof. done. Qed.

Lemma join_commas_snoc_pair (l : list string) (a b : string) :
  join_commas (l ++ [a; b]) = join_commas (l ++ [a +:+ String comma_char b]).
Proof.
  induction l as [|x l IH]; [done|].
  destruct l as [|y l]; [done|].
  cbn [app] in *. by rewrite !join_commas_cons, IH.
Qed.

(** Outside quotes and without quotes ahead, the loop splits on commas. *)
Lemma split_loop_plain (parts : list string) (current line : string) :
  quote_free line = true →
  join_commas (split_loop parts false current line)
  = join_commas (parts ++ [current +:+ line])
  ∧ length (split_loop parts false current line)
    = (length parts + 1 + count_commas line)%nat.
Proof.
  revert parts current. induction line as [|c line IH]; intros parts current Hq.
  - cbn [split_loop count_commas]. rewrite append_empty_r, length_app.
    split; [done|]. cbn [length]. lia.
  - cbn [quote_free] in Hq. apply andb_true_iff in Hq as [Hc Hq].
    apply negb_true_iff in Hc. cbn [split_loop count_commas]. rewrite Hc.
    destruct (Ascii.eqb c comma_char) eqn:Hcomma; cbn [andb negb].
    + apply Ascii.eqb_eq in Hcomma as ->.
      destruct (IH (parts ++ [current]) EmptyString Hq) as [Hj Hl].
      rewrite Hj, Hl, <- app_assoc. cbn [app].
      rewrite join_commas_snoc_pair, length_app. split; [done|].
      cbn [length]. lia.
    + destruct (IH parts (add_char current c) Hq) as [Hj Hl].
      rewrite Hj, Hl, append_add_char. split; [done|]. lia.
Qed.

(** X26: on a line without double quotes the scanner of [fix_csv_quoting]
    splits on the commas: joining the fields with commas gives the line
    back, and there is one field more than there are commas. *)
Theorem split_line_without_quotes (line : string) :
  quote_free line = true →
  join_commas (split_line line) = line
  ∧ length (split_line line) = S (count_commas line).
Proof.
  intros Hq. unfold split_line.
  destruct (split_loop_plain [] EmptyString line Hq) as [Hj Hl].
  split; [done|]. rewrite Hl. cbn [length]. lia.
Qed.

(** A line of the seven columns. *)
Lemma split_line_without_quotes_witness :
  join_commas (split_line "0,Contact Info,mobileNo,Input,555-1234,id,//*[@id='m']")
  = "0,Contact Info,mobileNo,Input,555-1234,id,//*[@id='m']"
  ∧ length (split_line "0,Contact Info,mobileNo,Input,555-1234,id,//*[@id='m']")
    = S (count_commas "0,Contact Info,mobileNo,Input,555-1234,id,//*[@id='m']").
Proof. apply split_line_without_quotes. reflexivity. Defined.

(** Inside quotes and without quotes ahead, the loop copies. *)
Lemma split_loop_inside (parts : list string) (current body rest : string) :
  quote_free body = true →
  split_loop parts true current (body +:+ rest)
  = split_loop parts true (current +:+ body) rest.
Proof.
  revert current. induction body as [|c body IH]; intros current Hq.
  - by rewrite append_empty_r.
  - cbn [quote_free] in Hq. apply andb_true_iff in Hq as [Hc Hq].
    apply negb_true_iff in Hc. rewrite append_cons. cbn [split_loop].
    rewrite Hc, andb_false_r, IH by done. by rewrite append_add_char.
Qed.

(** X27: a non-empty text between two double quotes is copied into the
    current field as it is, commas included, and the quotes are dropped,
    provided the text has no quote inside and the closing quote is not
    followed by another quote.  Two quotes in a row never open or close
    anything: they add one quote character to the current field, so an
    empty quoted field becomes a field holding a quote. *)
Theorem split_loop_quoted_run (parts : list string) (in_quotes : bool)
    (current body rest : string) :
  (quote_free body = true → body ≠ EmptyString → no_leading_quote rest = true →
   split_loop parts false current
     (String quote_char (body +:+ String quote_char rest))
   = split_loop parts false (current +:+ body) rest)
  ∧ split_loop parts in_quotes current (String quote_char (String quote_char rest))
    = split_loop parts in_quotes (add_char current quote_char) rest.
Proof.
  split; [|done]. intros Hq Hne Hrest.
  destruct body as [|c body]; [done|].
  pose proof Hq as Hq'. cbn [quote_free] in Hq'.
  apply andb_true_iff in Hq' as [Hc _]. apply negb_true_iff in Hc.
  change (split_loop parts false current
            (String quote_char (String c body +:+ String quote_char rest)))
    with (if Ascii.eqb c quote_char
          then split_loop parts false (add_char current quote_char)
                 (body +:+ String quote_char rest)
          else split_loop parts true current
                 (String c body +:+ String quote_char rest)).
  rewrite Hc, split_loop_inside by done.
  destruct rest as [|d rest]; [done|].
  cbn [no_leading_quote] in Hrest. apply negb_true_iff in Hrest.
  cbn [split_loop]. rewrite Ascii.eqb_refl, Hrest. done.
Qed.

(** After the index, a quoted salary range, then plain fields. *)
Lemma split_loop_quoted_run_witness :
  split_loop ["60"] false EmptyString
    (String quote_char
       ("$12,001-$17,000" +:+ String quote_char ",click,,data-testid,//x"))
  = ["60"; "$12,001-$17,000"; "click"; ""; "data-testid"; "//x"].
Proof.
  rewrite (proj1 (split_loop_quoted_run ["60"] false EmptyString
                    "$12,001-$17,000" ",click,,data-testid,//x")).
  - reflexivity.
  - reflexivity.
  - discriminate.
  - reflexivity.
Defined.


(** *** The regrouping of over-long lines *)

Lemma first_action_app (mid rest : list string) (pa : string) :
  Forall (fun p => is_action p = false) mid → is_action pa = true →
  first_action (mid ++ pa :: rest) = Some (length mid).
Proof.
  intros Hmid Hpa. induction Hmid as [|p mid Hp _ IH].
  - cbn [app first_action length]. by rewrite Hpa.
  - cbn [app first_action length]. by rewrite Hp, IH.
Qed.

Lemma first_action_none (l : list string) :
  Forall (fun p => is_action p = false) l → first_action l = None.
Proof.
  induction 1 as [|p l Hp _ IH]; [done|].
  cbn [first_action]. by rewrite Hp, IH.
Qed.

Lemma join_commas_app (l1 l2 : list string) :
  l1 ≠ [] → l2 ≠ [] →
  join_commas (l1 ++ l2) = join_commas l1 +:+ String comma_char (join_commas l2).
Proof.
  intros H1 H2. induction l1 as [|x l1 IH]; [done|].
  destruct l1 as [|y l1].
  - destruct l2 as [|z l2]; [done|]. done.
  - cbn [app] in *. rewrite !join_commas_cons, IH by done.
    by rewrite append_assoc, append_cons.
Qed.

(** X28: a line of more than seven fields in which an action ([click] or
    [Input]) stands between the second field and the last two is
    regrouped into seven: what lies between the group and the first such
    action is joined with commas into the element, what lies between the
    action and the strategy into the value.  When neither stretch is
    empty, joining the seven fields with commas gives back the joined
    original. *)
Theorem repair_parts_regroups (p0 p1 pa s x : string) (mid1 mid2 : list string) :
  (2 < length mid1 + length mid2)%nat →
  Forall (fun p => is_action p = false) mid1 →
  is_action pa = true →
  repair_parts (p0 :: p1 :: mid1 ++ pa :: mid2 ++ [s; x])
  = [p0; p1; join_commas mid1; pa; join_commas mid2; s; x]
  ∧ (mid1 ≠ [] → mid2 ≠ [] →
     join_commas (repair_parts (p0 :: p1 :: mid1 ++ pa :: mid2 ++ [s; x]))
     = join_commas (p0 :: p1 :: mid1 ++ pa :: mid2 ++ [s; x])).
Proof.
  intros Hlen Hmid Hpa.
  assert (Heq : repair_parts (p0 :: p1 :: mid1 ++ pa :: mid2 ++ [s; x])
                = [p0; p1; join_commas mid1; pa; join_commas mid2; s; x]).
  { unfold repair_parts.
    assert (Hn : length (p0 :: p1 :: mid1 ++ pa :: mid2 ++ [s; x])
                 = (length mid1 + length mid2 + 5)%nat).
    { cbn [length]. rewrite length_app. cbn [length]. rewrite length_app.
      cbn [length]. lia. }
    rewrite Hn. replace (7 <? length mid1 + length mid2 + 5)%nat with true
      by (symmetry; apply Nat.ltb_lt; lia).
    cbn [drop].
    replace (length mid1 + length mid2 + 5 - 4)%nat
      with (length mid1 + S (length mid2))%nat by lia.
    assert (Htake : take (length mid1 + S (length mid2))
                      (mid1 ++ pa :: mid2 ++ [s; x]) = mid1 ++ pa :: mid2).
    { rewrite take_app_add'; [|done]. f_equal.
      change (pa :: mid2 ++ [s; x]) with ((pa :: mid2) ++ [s; x]).
      by rewrite take_app_length'. }
    rewrite !drop_0, Htake, (first_action_app mid1 mid2 pa) by done.
    unfold item.
    replace (2 + length mid1 - 2)%nat with (length mid1) by lia.
    rewrite take_app_length.
    (* the action *)
    assert (Hact : (p0 :: p1 :: mid1 ++ pa :: mid2 ++ [s; x]) !! (2 + length mid1)%nat
                   = Some pa).
    { cbn [plus]. rewrite !lookup_cons.
      rewrite lookup_app_r by lia. by rewrite Nat.sub_diag. }
    rewrite Hact.
    (* the value *)
    assert (Hdrop : drop (2 + length mid1 + 1) (p0 :: p1 :: mid1 ++ pa :: mid2 ++ [s; x])
                    = mid2 ++ [s; x]).
    { replace (2 + length mid1 + 1)%nat with (S (S (length mid1 + 1))) by lia.
      cbn [drop]. rewrite drop_app_add'; [|done]. done. }
    rewrite Hdrop.
    replace (length mid1 + length mid2 + 5 - 2 - (2 + length mid1 + 1))%nat
      with (length mid2) by lia.
    rewrite take_app_length.
    (* strategy and XPath *)
    assert (Hs : (p0 :: p1 :: mid1 ++ pa :: mid2 ++ [s; x])
                   !! (length mid1 + length mid2 + 5 - 2)%nat = Some s).
    { replace (length mid1 + length mid2 + 5 - 2)%nat
        with (S (S (length mid1 + S (length mid2 + 0)))) by lia.
      rewrite !lookup_cons. rewrite lookup_app_r by lia.
      replace (length mid1 + S (length mid2 + 0) - length mid1)%nat
        with (S (length mid2 + 0)) by lia.
      rewrite lookup_cons. rewrite lookup_app_r by lia.
      by replace (length mid2 + 0 - length mid2)%nat with 0%nat by lia. }
    assert (Hx : (p0 :: p1 :: mid1 ++ pa :: mid2 ++ [s; x])
                   !! (length mid1 + length mid2 + 5 - 1)%nat = Some x).
    { replace (length mid1 + length mid2 + 5 - 1)%nat
        with (S (S (length mid1 + S (length mid2 + 1)))) by lia.
      rewrite !lookup_cons. rewrite lookup_app_r by lia.
      replace (length mid1 + S (length mid2 + 1) - length mid1)%nat
        with (S (length mid2 + 1)) by lia.
      rewrite lookup_cons. rewrite lookup_app_r by lia.
      by replace (length mid2 + 1 - length mid2)%nat with 1%nat by lia. }
    rewrite Hs, Hx. reflexivity. }
  split; [done|]. intros H1 H2. rewrite Heq.
  change (p0 :: p1 :: mid1 ++ pa :: mid2 ++ [s; x])
    with ([p0; p1] ++ mid1 ++ [pa] ++ mid2 ++ [s; x]).
  change [p0; p1; join_commas mid1; pa; join_commas mid2; s; x]
    with ([p0; p1] ++ [join_commas mid1] ++ [pa] ++ [join_commas mid2] ++ [s; x]).
  rewrite !join_commas_app; try done.
  all: try (by destruct mid1). all: try (by destruct mid2).
Qed.

(** A line whose element and value both hold a comma and were left
    unquoted. *)
Lemma repair_parts_regroups_witness :
  repair_parts
    ("60" :: "Additional Details" :: ["$12"; "001-$17"; "000"]
       ++ "Input" :: ["1"; "5"] ++ ["data-testid"; "//x"])
  = ["60"; "Additional Details"; "$12,001-$17,000"; "Input"; "1,5";
     "data-testid"; "//x"].
Proof.
  refine (proj1 (repair_parts_regroups "60" "Additional Details" "Input"
                   "data-testid" "//x" ["$12"; "001-$17"; "000"] ["1"; "5"]
                   _ _ _)).
  - simpl. lia.
  - repeat constructor.
  - reflexivity.
Defined.

(** X29: [repair_parts] leaves a line of at most seven fields as it is,
    and always returns exactly seven fields for a longer line, keeping the
    first two.  When no field between the second and the last two is an
    action, the longer line is cut to its first seven fields, so the
    fields after the seventh, the XPath among them, are lost. *)
Theorem repair_parts_shape (parts : list string) :
  ((length parts ≤ 7)%nat → repair_parts parts = parts)
  ∧ ((7 < length parts)%nat →
     length (repair_parts parts) = 7%nat
     ∧ take 2 (repair_parts parts) = take 2 parts)
  ∧ ((7 < length parts)%nat →
     Forall (fun p => is_action p = false)
       (take (length parts - 4) (drop 2 parts)) →
     repair_parts parts = take 7 parts).
Proof.
  unfold repair_parts. split; [|split].
  - intros Hle. replace (7 <? length parts)%nat with false; [done|].
    symmetry. apply Nat.ltb_ge. lia.
  - intros Hlt. replace (7 <? length parts)%nat with true
      by (symmetry; apply Nat.ltb_lt; lia).
    destruct (first_action _) as [k|].
    + split; [done|]. unfold item.
      destruct parts as [|a [|b parts]]; cbn [length] in Hlt; [lia|lia|done].
    + split; [rewrite length_take; lia|].
      destruct parts as [|a [|b parts]]; cbn [length] in Hlt; [lia|lia|done].
  - intros Hlt Hnone. replace (7 <? length parts)%nat with true
      by (symmetry; apply Nat.ltb_lt; lia).
    by rewrite first_action_none.
Qed.

(** A line of nine fields without action: the XPath does not survive. *)
Lemma repair_parts_shape_witness :
  repair_parts ["0"; "Contact Info"; "a"; "b"; "c"; "d"; "e"; "id"; "//x"]
  = take 7 ["0"; "Contact Info"; "a"; "b"; "c"; "d"; "e"; "id"; "//x"].
Proof.
  refine (proj2 (proj2 (repair_parts_shape _)) _ _).
  - simpl. lia.
  - repeat constructor.
Defined.


(** X30: a line without double quotes and with at most six commas goes
    through the repair untouched: its row is the split on commas, and
    joining the row with commas gives the line back. *)
Theorem fixed_row_well_formed (line : string) :
  quote_free line = true → (count_commas line ≤ 6)%nat →
  fixed_row line = split_line line
  ∧ join_commas (fixed_row line) = line
  ∧ length (fixed_row line) = S (count_commas line).
Proof.
  intros Hq Hc. unfold fixed_row, split_line.
  destruct (split_loop_plain [] EmptyString line Hq) as [Hj Hl].
  cbn [length app] in Hl, Hj.
  assert (Hsame : repair_parts (split_loop [] false EmptyString line)
                  = split_loop [] false EmptyString line).
  { unfold repair_parts. rewrite Hl.
    replace (7 <? 0 + 1 + count_commas line)%nat with false; [done|].
    symmetry. apply Nat.ltb_ge. lia. }
  rewrite Hsame. split; [done|]. split; [done|]. rewrite Hl. lia.
Qed.

(** A header line. *)
Lemma fixed_row_well_formed_witness :
  fixed_row ",Group,Element,Action,Value,Strategy,XPath"
  = split_line ",Group,Element,Action,Value,Strategy,XPath"
  ∧ join_commas (fixed_row ",Group,Element,Action,Value,Strategy,XPath")
    = ",Group,Element,Action,Value,Strategy,XPath"
  ∧ length (fixed_row ",Group,Element,Action,Value,Strategy,XPath")
    = S (count_commas ",Group,Element,Action,Value,Strategy,XPath").
Proof.
  apply fixed_row_well_formed; [reflexivity|]. simpl. lia.
Defined.

End GeneratorMore.
